(** * subsai web UI: configuration coercion, memoised pipeline and
      subtitle-document session model

    Shallow embedding of [src/subsai/webui.py] (and the tables of
    [src/subsai/configs.py] it reads).  Python dictionaries are finite maps
    ([gmap]), the ordered config schema is an association list in
    declaration order, exceptions are explicit results, and the Streamlit
    session, the object store and the caches are threaded as explicit
    state. *)

From Stdlib Require Import ZArith Ascii String.
From stdpp Require Import base option strings list gmap fin_maps.
From stdpp Require Import pretty.

Local Open Scope string_scope.

(** ** Python values *)

(** Subtitle documents are Python objects: they are held by reference. *)
Definition loc := nat.

Section PyValues.
(** [float] stands for Python's binary floating-point numbers; the
    development never computes with them. *)
Context {float : Type}.

(** What a session-state slot or a config entry may hold. *)
Inductive value : Type :=
| VNone
| VStr (s : string)
| VInt (n : Z)
| VFloat (f : float)
| VBool (b : bool)
| VRef (l : loc).

(** The class object stored under ['type'] in a config schema entry:
    [str], [list], [float], [int], [bool], or any other class. *)
Inductive py_type : Type := TStr | TList | TFloat | TInt | TBool | TOther.

(** One entry of a config schema:
    [{'type': .., 'description': .., 'options': .., 'default': ..}]. *)
Record ParameterSpec : Type := {
  type : py_type;
  description : string;
  options : option (list value);
  default : value;
}.
End PyValues.

Arguments value : clear implicits.
Arguments ParameterSpec : clear implicits.

(** Outcome of a Python expression that may raise: the exception is kept
    as the text [str(e)] it would print. *)
Inductive raises (A : Type) : Type :=
| Returns (a : A)
| Raises (msg : string).
Arguments Returns {A} a.
Arguments Raises {A} msg.

(** The Python built-ins the coercer calls.  They are external to the
    repository and taken as an interface; none of them raises
    [KeyError]. *)
Class PyBuiltins := {
  float : Type;
  float_eq_dec :: EqDecision float;
  float_of_str : string → raises float;      (* float("...") *)
  float_of_int : Z → raises float;           (* float(n) *)
  int_of_str : string → raises Z;            (* int("...") *)
  int_of_float : float → raises Z;           (* int(x) *)
}.

(** ** [_get_key] *)

Definition _get_key (model_name config_name : string) : string :=
  model_name +:+ "-" +:+ config_name.

(** ** Config coercion *)

(** What a notification slot shows. *)
Inductive notice : Type :=
| error (body : string)
| success (body : string).

Definition newline : string := String "010"%char EmptyString.

Abbreviation val := (value float).
Abbreviation spec := (ParameterSpec float).

Section Coercer.
Context `{PyBuiltins}.

#[export] Instance value_eq_dec : EqDecision val.
Proof. solve_decision. Defined.

#[export] Instance py_type_eq_dec : EqDecision py_type.
Proof. solve_decision. Defined.

(** [float(value)] *)
Definition py_float (v : val) : raises float :=
  match v with
  | VStr s => float_of_str s
  | VInt n => float_of_int n
  | VFloat f => Returns f
  | VBool b => float_of_int (if b then 1 else 0)
  | VNone =>
      Raises "float() argument must be a string or a real number, not 'NoneType'"
  | VRef _ =>
      Raises "float() argument must be a string or a real number, not 'SSAFile'"
  end.

(** [int(value)] *)
Definition py_int (v : val) : raises Z :=
  match v with
  | VStr s => int_of_str s
  | VInt n => Returns n
  | VFloat f => int_of_float f
  | VBool b => Returns (if b then 1 else 0)%Z
  | VNone =>
      Raises "int() argument must be a string, a bytes-like object or a real number, not 'NoneType'"
  | VRef _ =>
      Raises "int() argument must be a string, a bytes-like object or a real number, not 'SSAFile'"
  end.

(** [value == 'None' or value == ''] *)
Definition is_none_or_empty (v : val) : bool :=
  match v with
  | VStr s => String.eqb s "None" || String.eqb s EmptyString
  | _ => false
  end.

(** The [if]/[elif] chain of [_get_config_from_session_state]
    (webui.py, lines 106-118), for the value read from the session. *)
Definition coerce (ty : py_type) (v : val) : raises val :=
  match ty with
  | TStr => if is_none_or_empty v then Returns VNone else Returns v
  | TFloat =>
      if is_none_or_empty v then Returns VNone
      else match py_float v with
           | Returns f => Returns (VFloat f)
           | Raises e => Raises e
           end
  | TInt =>
      if is_none_or_empty v then Returns VNone
      else match py_int v with
           | Returns n => Returns (VInt n)
           | Raises e => Raises e
           end
  | TList | TBool | TOther => Returns v
  end.

(** The [for config_name in config_schema] loop: a missing session key
    is skipped ([except KeyError: pass]); any other exception leaves the
    loop with the exception text. *)
Fixpoint config_loop (model_name : string) (config_schema : list (string * spec))
    (session_state : gmap string val) (model_config : gmap string val)
    : raises (gmap string val) :=
  match config_schema with
  | [] => Returns model_config
  | (config_name, config) :: rest =>
      let key := _get_key model_name config_name in
      match session_state !! key with
      | None => config_loop model_name rest session_state model_config
      | Some v =>
          match coerce (type config) v with
          | Returns v' =>
              config_loop model_name rest session_state
                (<[config_name := v']> model_config)
          | Raises e => Raises e
          end
      end
  end.

(** [_get_config_from_session_state]: the dict of configs, or [None]
    after writing the error into the notification placeholder. *)
Definition _get_config_from_session_state (model_name : string)
    (config_schema : list (string * spec)) (session_state : gmap string val)
    (notification_placeholder : option notice)
    : option (gmap string val) * option notice :=
  match config_loop model_name config_schema session_state ∅ with
  | Returns model_config => (Some model_config, notification_placeholder)
  | Raises e =>
      (None, Some (error ("Problem parsing configs!! " +:+ newline +:+ " " +:+ e)))
  end.
End Coercer.

(** ** Subtitle documents *)

(** A [pysubs2] event, with the fields the UI reads and writes. *)
Record SSAEvent : Type := {
  start : Z;
  end_ : Z;
  text : string;
}.

#[export] Instance SSAEvent_eq_dec : EqDecision SSAEvent.
Proof. solve_decision. Defined.

(** A [pysubs2.SSAFile]: its list of events. *)
Abbreviation SSAFile := (list SSAEvent).

(** Python list indexing: a negative index counts from the end. *)
Definition py_index (len : nat) (i : Z) : option nat :=
  let j := if (i <? 0)%Z then (i + Z.of_nat len)%Z else i in
  if ((0 <=? j) && (j <? Z.of_nat len))%Z then Some (Z.to_nat j) else None.

(** [sub.text = changed_sub_text] *)
Definition set_text (changed_sub_text : string) (sub : SSAEvent) : SSAEvent :=
  {| start := start sub; end_ := end_ sub; text := changed_sub_text |}.

(** [subs[changed_sub_index].text = changed_sub_text] (webui.py, line 389):
    indexing raises [IndexError] before anything is written. *)
Definition edit_text (subs : SSAFile) (changed_sub_index : Z)
    (changed_sub_text : string) : raises SSAFile :=
  match py_index (length subs) changed_sub_index with
  | Some n => Returns (alter (set_text changed_sub_text) n subs)
  | None => Raises "list index out of range"
  end.

(** ** The engines behind the UI *)

(** Key under which a transcription is memoised: the arguments of
    [_transcribe]; [model_config] is [None] when coercion failed. *)
Abbreviation cache_key := (string * string * option (gmap string val))%type.

(** [subs_ai] and [tools] ([subsai.SubsAI], [subsai.Tools]) are not part of
    the files at hand: their methods are an interface acting on an opaque
    [world]. *)
Class Engines `{PyBuiltins} := {
  world : Type;
  model : Type;
  translation_model : Type;
  (* SubsAI.config_schema(model_name) *)
  config_schema_of : string → list (string * spec);
  (* subs_ai.create_model(model_name, model_config=model_config) *)
  create_model : string → option (gmap string val) → world →
                 raises model * world;
  (* subs_ai.transcribe(media_file=file_path, model=model) *)
  transcribe : string → model → world → raises SSAFile * world;
  (* tools.create_translation_model(model_name) *)
  create_translation_model : string → world → raises translation_model * world;
  (* tools.google_translate(subs, source_language, target_language) *)
  google_translate : SSAFile → string → string → world → raises SSAFile * world;
}.

Section Pipeline.
Context `{Engines}.

(** Process-wide state: the engines' world, the two Streamlit caches, and
    a trace of the runs of each decorated body (its key, and whether it
    returned), kept to count them. *)
Record process : Type := {
  env : world;
  data_cache : list (cache_key * SSAFile);
  resource_cache : list (string * translation_model);
  transcriptions : list (cache_key * bool);
  initialisations : list (string * bool);
}.

(** The process as it starts: nothing cached, nothing run. *)
Definition fresh_process (w : world) : process :=
  {| env := w; data_cache := []; resource_cache := [];
     transcriptions := []; initialisations := [] |}.

(** First entry stored under [k]. *)
Fixpoint assoc {K V : Type} `{EqDecision K} (k : K) (c : list (K * V)) : option V :=
  match c with
  | [] => None
  | (k', v) :: c' => if decide (k' = k) then Some v else assoc k c'
  end.

(** The body of [_transcribe] (webui.py, lines 190-192). *)
Definition transcribe_body (key : cache_key) (w : world) : raises SSAFile * world :=
  let '(file_path, model_name, model_config) := key in
  match create_model model_name model_config w with
  | (Raises e, w1) => (Raises e, w1)
  | (Returns model, w1) => transcribe file_path model w1
  end.

(** Modelled from the spec: the [st.cache_data] decorator, which belongs
    to Streamlit and is not among the files at hand.  Section 4.3: if an
    entry exists for the key the stored document is returned without
    invoking the model; otherwise the body runs, its document is stored
    under the key and returned; a failure is not cached. *)
Definition cache_data (body : cache_key → world → raises SSAFile * world)
    (key : cache_key) (p : process) : raises SSAFile * process :=
  match assoc key (data_cache p) with
  | Some subs => (Returns subs, p)
  | None =>
      match body key (env p) with
      | (Returns subs, w) =>
          (Returns subs,
           {| env := w; data_cache := (key, subs) :: data_cache p;
              resource_cache := resource_cache p;
              transcriptions := (key, true) :: transcriptions p;
              initialisations := initialisations p |})
      | (Raises e, w) =>
          (Raises e,
           {| env := w; data_cache := data_cache p;
              resource_cache := resource_cache p;
              transcriptions := (key, false) :: transcriptions p;
              initialisations := initialisations p |})
      end
  end.

(** Modelled from the spec: the [st.cache_resource] decorator, likewise
    Streamlit's.  Section 4.5: memoised per identifier; later calls with
    the same identifier return the stored instance itself. *)
Definition cache_resource (body : string → world → raises translation_model * world)
    (model_name : string) (p : process) : raises translation_model * process :=
  match assoc model_name (resource_cache p) with
  | Some translation_model => (Returns translation_model, p)
  | None =>
      match body model_name (env p) with
      | (Returns tm, w) =>
          (Returns tm,
           {| env := w; data_cache := data_cache p;
              resource_cache := (model_name, tm) :: resource_cache p;
              transcriptions := transcriptions p;
              initialisations := (model_name, true) :: initialisations p |})
      | (Raises e, w) =>
          (Raises e,
           {| env := w; data_cache := data_cache p;
              resource_cache := resource_cache p;
              transcriptions := transcriptions p;
              initialisations := (model_name, false) :: initialisations p |})
      end
  end.

(** [@st.cache_resource def _create_translation_model(model_name)] *)
Definition _create_translation_model (model_name : string) (p : process)
    : raises translation_model * process :=
  cache_resource create_translation_model model_name p.

(** [@st.cache_data def _transcribe(file_path, model_name, model_config)] *)
Definition _transcribe (file_path model_name : string)
    (model_config : option (gmap string val)) (p : process)
    : raises SSAFile * process :=
  cache_data transcribe_body (file_path, model_name, model_config) p.

(** A call reaching one of the two memoised functions. *)
Inductive request : Type :=
| ReqTranscribe (file_path model_name : string)
                (model_config : option (gmap string val))
| ReqTranslationModel (model_name : string).

Definition serve (r : request) (p : process) : process :=
  match r with
  | ReqTranscribe file_path model_name model_config =>
      (_transcribe file_path model_name model_config p).2
  | ReqTranslationModel model_name => (_create_translation_model model_name p).2
  end.

(** The process after a sequence of calls, oldest first. *)
Definition serve_all (rs : list request) (p : process) : process :=
  foldl (λ p r, serve r p) p rs.

End Pipeline.

(** How many times the body behind a key has been entered, and how many
    times it has returned. *)
Definition attempts {K : Type} `{EqDecision K} (k : K) (log : list (K * bool)) : nat :=
  length (filter (λ e, e.1 = k) log).

Definition completed {K : Type} `{EqDecision K} (k : K) (log : list (K * bool)) : nat :=
  length (filter (λ e, e = (k, true)) log).

(** A cache and its trace agree: a key that is not cached has never been
    completed, and no key has been completed twice. *)
Definition consistent {K V : Type} `{EqDecision K} (cache : list (K * V))
    (log : list (K * bool)) : Prop :=
  ∀ k, (assoc k cache = None → completed k log = 0%nat) ∧ (completed k log ≤ 1)%nat.

(** ** The script run *)

Section WebUI.
Context `{Engines}.

(** What one run of the script works on: [st.session_state], the store of
    subtitle objects its entries point to, the process-wide caches, the
    notification placeholder and the messages written to the page. *)
Record session : Type := {
  session_state : gmap string val;
  heap : gmap loc SSAFile;
  proc : process;
  notification_placeholder : option notice;
  page : list notice;
}.

(** A new object in the store. *)
Definition alloc (subs : SSAFile) (h : gmap loc SSAFile) : loc * gmap loc SSAFile :=
  let l := fresh (dom h) in (l, <[l := subs]> h).

(** The object a value points to. *)
Definition deref (v : val) (h : gmap loc SSAFile) : option SSAFile :=
  match v with
  | VRef l => h !! l
  | _ => None
  end.

Definition stt_model_name : string := "openai/whisper".

(** [if transcribe_button:] (webui.py, lines 302-308).  The value returned
    by [_get_config_from_session_state] goes to [_transcribe] as it is; an
    exception of [_transcribe] ends the run.  Returns the local [subs]. *)
Definition transcribe_block (file_path : string) (u : session)
    : raises val * session :=
  let config_schema := config_schema_of stt_model_name in
  let '(model_config, placeholder) :=
    _get_config_from_session_state stt_model_name config_schema
      (session_state u) (notification_placeholder u) in
  match _transcribe file_path stt_model_name model_config (proc u) with
  | (Raises e, p) =>
      (Raises e,
       {| session_state := session_state u; heap := heap u; proc := p;
          notification_placeholder := placeholder; page := page u |})
  | (Returns document, p) =>
      let '(l, h) := alloc document (heap u) in
      (Returns (VRef l),
       {| session_state := <["transcribed_subs" := VRef l]> (session_state u);
          heap := h; proc := p;
          notification_placeholder := placeholder; page := page u |})
  end.

(** [if submitted:] under the Translate button (webui.py, lines 321-332
    and the handler of line 341); [subs] is the local variable of the
    run.  The success notification of line 331 belongs to the [else] of
    line 324: without [transcribed_subs] only the error of line 323 is
    shown and the placeholder is left as it is. *)
Definition translate_block (subs : val) (target_language : string) (u : session)
    : session :=
  match session_state u !! "transcribed_subs" with
  | None =>
      {| session_state := session_state u; heap := heap u; proc := proc u;
         notification_placeholder := notification_placeholder u;
         page := page u ++ [error "No subtitles to translate"] |}
  | Some transcribed_subs =>
      let failed w :=
        {| session_state := session_state u; heap := heap u;
           proc := {| env := w; data_cache := data_cache (proc u);
                      resource_cache := resource_cache (proc u);
                      transcriptions := transcriptions (proc u);
                      initialisations := initialisations (proc u) |};
           notification_placeholder := notification_placeholder u;
           page := page u ++ [error "dont find subtitles, google translator failed!"] |} in
      match deref subs (heap u) with
      | None => failed (env (proc u))
      | Some document =>
          match google_translate document "auto" target_language (env (proc u)) with
          | (Raises e, w) => failed w
          | (Returns translated, w) =>
              let '(l, h) := alloc translated (heap u) in
              {| session_state :=
                   <["transcribed_subs" := VRef l]>
                     (<["original_subs" := transcribed_subs]> (session_state u));
                 heap := h;
                 proc := {| env := w; data_cache := data_cache (proc u);
                            resource_cache := resource_cache (proc u);
                            transcriptions := transcriptions (proc u);
                            initialisations := initialisations (proc u) |};
                 notification_placeholder := Some (success "Success!");
                 page := page u |}
          end
      end
  end.

(** [if reload_transcribed_subs:] (webui.py, lines 336-340). *)
Definition reload_block (u : session) : session :=
  match session_state u !! "original_subs" with
  | Some original_subs =>
      {| session_state := <["transcribed_subs" := original_subs]> (session_state u);
         heap := heap u; proc := proc u;
         notification_placeholder := notification_placeholder u;
         page := page u |}
  | None =>
      {| session_state := session_state u; heap := heap u; proc := proc u;
         notification_placeholder := notification_placeholder u;
         page := page u ++ [error "Original subs are already loaded"] |}
  end.

(** [# change subs] (webui.py, lines 381-393), for the first selected row
    of the grid, given as its [nodeRowIndex] and its [Text].  The event is
    written into the object held by the session; any exception ends in the
    error notification. *)
Definition change_subs_block (selected_rows : list (Z * string)) (u : session)
    : session :=
  match selected_rows with
  | [] => u
  | (changed_sub_index, changed_sub_text) :: _ =>
      let state := <["selected_row_idx" := VInt changed_sub_index]> (session_state u) in
      let failed :=
        {| session_state := state; heap := heap u; proc := proc u;
           notification_placeholder := Some (error "Error parsing subs!");
           page := page u |} in
      match state !! "transcribed_subs" with
      | Some (VRef l) =>
          match heap u !! l with
          | Some subs =>
              match edit_text subs changed_sub_index changed_sub_text with
              | Returns subs' =>
                  {| session_state := <["transcribed_subs" := VRef l]> state;
                     heap := <[l := subs']> (heap u); proc := proc u;
                     notification_placeholder := notification_placeholder u;
                     page := page u |}
              | Raises _ => failed
              end
          | None => failed
          end
      | _ => failed
      end
  end.

(** What the user did before a run: the widgets the script reads. *)
Record inputs : Type := {
  file_path : string;
  transcribe_button : bool;
  advanced_tool : string;
  target_language : string;
  submitted : bool;
  reload_transcribed_subs : bool;
  selected_rows : list (Z * string);
}.

(** One run of [webui], for the parts that touch the configuration, the
    caches and the subtitle documents. *)
Definition webui (i : inputs) (u : session) : raises unit * session :=
  let subs :=
    match session_state u !! "transcribed_subs" with
    | Some transcribed_subs => transcribed_subs
    | None => VNone
    end in
  let u :=
    {| session_state := <["file_path" := VStr (file_path i)]> (session_state u);
       heap := heap u; proc := proc u;
       notification_placeholder := None; page := [] |} in
  let after_transcribe :=
    if transcribe_button i then transcribe_block (file_path i) u
    else (Returns subs, u) in
  match after_transcribe with
  | (Raises e, u) => (Raises e, u)
  | (Returns subs, u) =>
      let u :=
        if decide (advanced_tool i = "google-translate") then
          let u := if submitted i then translate_block subs (target_language i) u else u in
          if reload_transcribed_subs i then reload_block u else u
        else u in
      (Returns (), change_subs_block (selected_rows i) u)
  end.
End WebUI.

(** ** Notions used to state the properties *)

Section Notions.
Context `{PyBuiltins}.

(** A raw value meets the constraint of its parameter: text for a text
    parameter; for a number, the unset markers or anything the numeric
    constructor accepts; a boolean; a member of [options].  A parameter
    of another class puts no constraint on its raw value. *)
Definition satisfies (config : spec) (v : val) : Prop :=
  match type config with
  | TStr => ∃ s, v = VStr s
  | TInt => is_none_or_empty v = true ∨ ∃ n, py_int v = Returns n
  | TFloat => is_none_or_empty v = true ∨ ∃ f, py_float v = Returns f
  | TBool => ∃ b, v = VBool b
  | TList => ∃ opts, options config = Some opts ∧ v ∈ opts
  | TOther => True
  end.

(** Every raw value present in the session meets its constraint. *)
Definition well_typed (model_name : string) (config_schema : list (string * spec))
    (session_state : gmap string val) : Prop :=
  ∀ config_name config v,
    (config_name, config) ∈ config_schema →
    session_state !! _get_key model_name config_name = Some v →
    satisfies config v.

(** No numeric parameter is left unset by its raw value. *)
Definition numbers_set (model_name : string) (config_schema : list (string * spec))
    (session_state : gmap string val) : Prop :=
  ∀ config_name config v,
    (config_name, config) ∈ config_schema →
    type config = TInt ∨ type config = TFloat →
    session_state !! _get_key model_name config_name = Some v →
    is_none_or_empty v = false.

(** A resolved config fed back as raw input: each value under the key of
    its parameter. *)
Definition reserialize (model_name : string) (model_config : gmap string val)
    : gmap string val :=
  kmap (_get_key model_name) model_config.

(** The raw value of a parameter makes its coercion raise [e]. *)
Definition offends (model_name : string) (session_state : gmap string val)
    (config_name : string) (config : spec) (e : string) : Prop :=
  ∃ v, session_state !! _get_key model_name config_name = Some v ∧
       coerce (type config) v = Raises e.

(** The raw value of a parameter, if any, is coerced without error. *)
Definition passes (model_name : string) (session_state : gmap string val)
    (entry : string * spec) : Prop :=
  ∀ v, session_state !! _get_key model_name entry.1 = Some v →
       ∃ v', coerce (type entry.2) v = Returns v'.
End Notions.

(** [needle in hay] *)
Fixpoint is_infix (needle hay : string) : bool :=
  String.prefix needle hay ||
  match hay with
  | EmptyString => false
  | String _ hay' => is_infix needle hay'
  end.

(** ** A reference instance of the interfaces *)

(** Decimal integer literals as [int] reads them from ASCII text: blanks
    around, an optional sign, digits with single underscores between
    them. *)
Definition is_space (c : ascii) : bool :=
  let n := nat_of_ascii c in
  (((9 <=? n) && (n <=? 13)) || ((28 <=? n) && (n <=? 32)))%nat.

Definition is_digit (c : ascii) : bool :=
  let n := nat_of_ascii c in ((48 <=? n) && (n <=? 57))%nat.

Fixpoint digits (s : list ascii) (acc : Z) (after_digit : bool) : option Z :=
  match s with
  | [] => if after_digit then Some acc else None
  | c :: s' =>
      if is_digit c then
        digits s' (10 * acc + Z.of_nat (nat_of_ascii c - 48))%Z true
      else if Ascii.eqb c "_" then
        if after_digit then digits s' acc false else None
      else None
  end.

Fixpoint drop_blanks (s : list ascii) : list ascii :=
  match s with
  | c :: s' => if is_space c then drop_blanks s' else s
  | [] => []
  end.

Definition strip (s : list ascii) : list ascii :=
  reverse (drop_blanks (reverse (drop_blanks s))).

Definition int_literal (s : string) : option Z :=
  match strip (list_ascii_of_string s) with
  | c :: s' =>
      if Ascii.eqb c "-" then Z.opp <$> digits s' 0 false
      else if Ascii.eqb c "+" then digits s' 0 false
      else digits (c :: s') 0 false
  | [] => None
  end.

(** [repr] of a text without quotes, backslashes or control characters. *)
Definition repr (s : string) : string := "'" +:+ s +:+ "'".

(** The built-ins on ASCII text, with the whole numbers for the reals:
    enough to run the definitions on sessions whose raw values are texts,
    integers and booleans. *)
#[export] Instance whole_number_builtins : PyBuiltins := {|
  float := Z;
  float_eq_dec := _;
  float_of_str s :=
    match int_literal s with
    | Some n => Returns n
    | None => Raises ("could not convert string to float: " +:+ repr s)
    end;
  float_of_int n := Returns n;
  int_of_str s :=
    match int_literal s with
    | Some n => Returns n
    | None => Raises ("invalid literal for int() with base 10: " +:+ repr s)
    end;
  int_of_float f := Returns f;
|}.

(** The schema of the spec's example scenario. *)
Definition whisper_schema : list (string * spec) :=
  [("model_type",
    {| type := TList; description := "model size";
       options := Some [VStr "tiny"; VStr "base"; VStr "small"];
       default := VStr "base" |})].

(** Two integer parameters. *)
Definition decoding_schema : list (string * spec) :=
  [("beam_size",
    {| type := TInt; description := "number of beams";
       options := None; default := VInt 5 |});
   ("best_of",
    {| type := TInt; description := "number of candidates";
       options := None; default := VInt 5 |})].

(** Engines that answer at once: the world counts their calls; a
    transcription is one event carrying the path; a translation model is
    the serial number of its construction; a translation prefixes the
    target language. *)
#[export] Instance demo_engines : Engines := {|
  world := nat;
  model := string;
  translation_model := nat;
  config_schema_of model_name :=
    if String.eqb model_name "openai/whisper"
    then (whisper_schema ++ decoding_schema)%list else [];
  create_model model_name model_config w := (Returns model_name, w);
  transcribe file_path model w :=
    (Returns [ {| start := 0; end_ := 1000; text := file_path |} ], S w);
  create_translation_model model_name w := (Returns w, S w);
  google_translate subs source_language target_language w :=
    (Returns ((λ sub, set_text (target_language +:+ ":" +:+ text sub) sub) <$> subs),
     S w);
|}.

(** Sessions over the whisper widgets. *)
Definition session_beam_only : gmap string val :=
  {[ "openai/whisper-beam_size" := VStr "7" ]}.

Definition session_bad_beam : gmap string val :=
  {[ "openai/whisper-beam_size" := VStr "abc";
     "openai/whisper-best_of" := VStr "5" ]}.

Definition session_bad_best : gmap string val :=
  {[ "openai/whisper-beam_size" := VStr "5";
     "openai/whisper-best_of" := VStr "abc" ]}.

Definition session_giant : gmap string val :=
  {[ "openai/whisper-model_type" := VStr "giant" ]}.

Definition session_unset_beam : gmap string val :=
  {[ "openai/whisper-beam_size" := VStr EmptyString ]}.

(** The text [int] raises on ['abc']. *)
Definition invalid_abc : string := "invalid literal for int() with base 10: 'abc'".

(** The demo process as it starts. *)
Definition demo_start : process := @fresh_process _ demo_engines 0%nat.

(** The document the demo engines make of ["talk.mp4"]. *)
Definition talk_subs : SSAFile :=
  [ {| start := 0; end_ := 1000; text := "talk.mp4" |} ].

(** The process after the first transcription of ["talk.mp4"] with the
    empty config. *)
Definition after_talk : process :=
  (_transcribe "talk.mp4" "openai/whisper" (Some ∅) demo_start).2.

(** The process after the first request for the translation backend
    ["google"]. *)
Definition after_google : process :=
  (_create_translation_model "google" demo_start).2.

(** A session holding the transcription of ["talk.mp4"] as object 0. *)
Definition talk_session : session :=
  {| session_state := {[ "transcribed_subs" := VRef 0%nat ]};
     heap := {[ 0%nat := talk_subs ]};
     proc := after_talk;
     notification_placeholder := None;
     page := [] |}.

(** A session in which the widget of [beam_size] holds ['abc']. *)
Definition bad_beam_session : session :=
  {| session_state := session_bad_beam;
     heap := ∅;
     proc := demo_start;
     notification_placeholder := None;
     page := [] |}.

(** A run in which only the Translate button was pressed, for Japanese,
    and a run in which only the reload button was pressed. *)
Definition press_translate : inputs :=
  {| file_path := "talk.mp4"; transcribe_button := false;
     advanced_tool := "google-translate"; target_language := "ja";
     submitted := true; reload_transcribed_subs := false; selected_rows := [] |}.

Definition press_reload : inputs :=
  {| file_path := "talk.mp4"; transcribe_button := false;
     advanced_tool := "google-translate"; target_language := "ja";
     submitted := false; reload_transcribed_subs := true; selected_rows := [] |}.

(** The session after a sequence of grid edits, oldest first. *)
Definition change_subs_all `{Engines} (edits : list (list (Z * string))) (u : session)
    : session :=
  foldl (λ u selected_rows, change_subs_block selected_rows u) u edits.

(** ** Tables of [configs.py] *)

(** The identifiers under which [AVAILABLE_MODELS] registers its models, in
    registration order.  The classes and schemas of the entries live in
    modules outside the files at hand. *)
Definition AVAILABLE_MODELS_names : list string :=
  ["openai/whisper"; "linto-ai/whisper-timestamped"; "ggerganov/whisper.cpp";
   "guillaumekln/faster-whisper"; "m-bain/whisperX"; "jianfch/stable-ts";
   "API/openai/whisper"; "HuggingFace"].

Section Tables.
Context `{PyBuiltins}.

(** [BASIC_TOOLS_CONFIGS]: each tool with its description and its config
    schema. *)
Definition BASIC_TOOLS_CONFIGS : list (string * (string * list (string * spec))) :=
  [("set time",
    ("Set time to a subtitle",
     [("h", {| type := TFloat;
               description := "hours: Integer or float values, may be positive or negative";
               options := None; default := VInt 0 |});
      ("m", {| type := TFloat;
               description := "minutes: Integer or float values, may be positive or negative";
               options := None; default := VInt 0 |});
      ("s", {| type := TFloat;
               description := "seconds: Integer or float values, may be positive or negative";
               options := None; default := VInt 0 |});
      ("ms", {| type := TFloat;
                description := "milliseconds: Integer or float values, may be positive or negative";
                options := None; default := VInt 0 |})]));
   ("shift",
    ("Shift all subtitles by constant time amount",
     [("h", {| type := TFloat;
               description := "hours: Integer or float values, may be positive or negative";
               options := None; default := VInt 0 |});
      ("m", {| type := TFloat;
               description := "minutes: Integer or float values, may be positive or negative";
               options := None; default := VInt 0 |});
      ("s", {| type := TFloat;
               description := "seconds: Integer or float values, may be positive or negative";
               options := None; default := VInt 0 |});
      ("ms", {| type := TFloat;
                description := "milliseconds: Integer or float values, may be positive or negative";
                options := None; default := VInt 0 |});
      ("frames", {| type := TInt;
                    description := "When specified, must be an integer number of frames";
                    options := None; default := VNone |});
      ("fps", {| type := TFloat;
                 description := "When specified, must be a positive number.";
                 options := None; default := VNone |})]))].
End Tables.

(** Every name under which a config UI may be generated: the models and
    the basic tools. *)
Definition config_owners `{PyBuiltins} : list string :=
  (AVAILABLE_MODELS_names ++ BASIC_TOOLS_CONFIGS.*1)%list.

(** ** The config UI *)

(** Equality and printing of Python objects, as [list.index] uses them;
    external to the repository. *)
Class PyObjects `{PyBuiltins} := {
  py_eq : val → val → bool;      (* a == b *)
  py_repr : val → string;        (* repr(a) *)
}.

Section ConfigUI.
Context `{PyObjects}.

(** A Streamlit widget call, with the arguments the script gives it. *)
Inductive widget : Type :=
| text_input (label help key : string) (value : val)
| selectbox (label : string) (choices : list val) (index : nat) (help key : string)
| number_input (label help key : string) (value : val)
| checkbox (label : string) (value : val) (help key : string).

(** The [key=] argument of a widget call. *)
Definition widget_key (w : widget) : string :=
  match w with
  | text_input _ _ key _ => key
  | selectbox _ _ _ _ key => key
  | number_input _ _ key _ => key
  | checkbox _ _ _ key => key
  end.

(** [l.index(x)]: the position of the first item equal to [x]. *)
Fixpoint py_list_index (x : val) (l : list val) : option nat :=
  match l with
  | [] => None
  | item :: l' => if py_eq item x then Some 0%nat else S <$> py_list_index x l'
  end.

(** The line [_config_ui] prints for a config without a widget. *)
Definition unsupported_warning (config_name : string) : string :=
  "Warning: " +:+ config_name +:+ " does not have a supported UI".

(** [_config_ui]: the widget call made for one config, if any, and the
    terminal output after it.  A choice raises when [index] does not find
    the default among the options; a class without a branch gets the
    printed warning, no widget and no exception. *)
Definition _config_ui (config_name key : string) (config : spec) (stdout : list string)
    : raises (option widget) * list string :=
  match type config with
  | TStr =>
      (Returns (Some (text_input config_name (description config) key (default config))),
       stdout)
  | TList =>
      match options config with
      | None => (Raises "'NoneType' object has no attribute 'index'", stdout)
      | Some choices =>
          match py_list_index (default config) choices with
          | Some index =>
              (Returns (Some (selectbox config_name choices index
                                (description config) key)),
               stdout)
          | None => (Raises (py_repr (default config) +:+ " is not in list"), stdout)
          end
      end
  | TFloat | TInt =>
      match default config with
      | VNone =>
          (Returns (Some (text_input config_name (description config) key
                            (default config))),
           stdout)
      | _ =>
          (Returns (Some (number_input config_name (description config) key
                            (default config))),
           stdout)
      end
  | TBool =>
      (Returns (Some (checkbox config_name (default config) (description config) key)),
       stdout)
  | TOther => (Returns None, (stdout ++ [unsupported_warning config_name])%list)
  end.

(** [_generate_config_ui]: the widgets made, in order, the terminal
    output, and the exception that ended the loop, if any. *)
Fixpoint _generate_config_ui (model_name : string) (config_schema : list (string * spec))
    (stdout : list string) : list widget * list string * option string :=
  match config_schema with
  | [] => ([], stdout, None)
  | (config_name, config) :: rest =>
      let key := _get_key model_name config_name in
      match _config_ui config_name key config stdout with
      | (Returns made, stdout) =>
          let '(ws, stdout, e) := _generate_config_ui model_name rest stdout in
          (match made with Some w => w :: ws | None => ws end, stdout, e)
      | (Raises e, stdout) => ([], stdout, Some e)
      end
  end.
End ConfigUI.

(** ** The subtitle table *)



(** ** The Youtube file mode *)

Section Youtube.
Context `{Engines}.
(** [subsai.models.YoutubeDownloader.download_youtube_video] *)
Variable download_youtube_video : string → world → raises string * world.

(** The [else] branch of the file modes and the assignment after it
    (webui.py, lines 288-296): the path, the session and the world after
    it.  An exception of the download ends the run before the path is
    stored. *)
Definition youtube_file_path (yt_url : string) (session_state : gmap string val)
    (w : world) : raises val * gmap string val * world :=
  let file_path := VStr EmptyString in
  if negb (String.length yt_url =? 0)%nat
     && bool_decide (session_state !! yt_url = None) then
    match download_youtube_video yt_url w with
    | (Returns path, w') =>
        (Returns (VStr path),
         <["file_path" := VStr path]> (<[yt_url := VStr path]> session_state), w')
    | (Raises e, w') => (Raises e, session_state, w')
    end
  else
    match session_state !! yt_url with
    | Some stored => (Returns stored, <["file_path" := stored]> session_state, w)
    | None => (Returns file_path, <["file_path" := file_path]> session_state, w)
    end.
End Youtube.

(** ** Reference instances for the further interfaces *)

(** The number a value compares as, in the whole-number instance. *)
Definition as_number (v : value Z) : option Z :=
  match v with
  | VInt n => Some n
  | VFloat f => Some f
  | VBool b => Some (if b then 1 else 0)%Z
  | _ => None
  end.

(** [==] and [repr] on the whole-number instance: numbers and booleans
    compare by value, anything else with its like. *)
#[export] Instance whole_number_objects : PyObjects := {|
  py_eq a b :=
    match as_number a, as_number b with
    | Some x, Some y => bool_decide (x = y)
    | None, None => bool_decide (a = b)
    | _, _ => false
    end;
  py_repr v :=
    match v with
    | VNone => "None"
    | VStr s => repr s
    | VInt n => pretty n
    | VFloat f => pretty f +:+ ".0"
    | VBool b => if b then "True" else "False"
    | VRef l => "<SSAFile " +:+ pretty l +:+ ">"
    end;
|}.

(** A schema with a parameter of a class without a widget, and a choice
    whose default is outside its options. *)
Definition broken_schema : list (string * spec) :=
  [("language",
    {| type := TStr; description := "spoken language";
       options := None; default := VNone |});
   ("suppress_tokens",
    {| type := TOther; description := "token ids to suppress";
       options := None; default := VNone |});
   ("model_type",
    {| type := TList; description := "model size";
       options := Some [VStr "tiny"; VStr "base"; VStr "small"];
       default := VStr "giant" |});
   ("verbose",
    {| type := TBool; description := "print progress";
       options := None; default := VBool false |})].

(** A schema all of whose widgets can be made, one parameter being of a
    class without a widget; and a session holding the values of the two
    widgets made for it. *)
Definition mixed_schema : list (string * spec) :=
  [("language",
    {| type := TStr; description := "spoken language";
       options := None; default := VNone |});
   ("suppress_tokens",
    {| type := TOther; description := "token ids to suppress";
       options := None; default := VNone |});
   ("verbose",
    {| type := TBool; description := "print progress";
       options := None; default := VBool false |})].

Definition mixed_session : gmap string val :=
  {[ "openai/whisper-language" := VStr "en";
     "openai/whisper-verbose" := VBool true ]}.

(** A downloader that stores every video under [/tmp]. *)
Definition demo_download (yt_url : string) (w : @world _ demo_engines)
    : raises string * @world _ demo_engines :=
  (Returns ("/tmp/" +:+ yt_url +:+ ".mp4"), S w).


(** The talk session once its transcription has been translated: object 1
    is active, object 0 is the backup. *)
Definition translated_session : session :=
  translate_block (VRef 0%nat) "ja" talk_session.

(** A document of two events. *)
Definition two_subs : SSAFile :=
  [ {| start := 0; end_ := 1000; text := "one" |};
    {| start := 1000; end_ := 2000; text := "two" |} ].

(** A session whose active document is that document, held as object 0. *)
Definition two_session : session :=
  {| session_state := {[ "transcribed_subs" := VRef 0%nat ]};
     heap := {[ 0%nat := two_subs ]};
     proc := demo_start;
     notification_placeholder := None;
     page := [] |}.

(** A session in which the widget of [beam_size] holds the text
    ['beam_size']. *)
Definition session_named_beam : gmap string val :=
  {[ "openai/whisper-beam_size" := VStr "beam_size" ]}.

(** A downloader for which every video is unavailable. *)
Definition failing_download (yt_url : string) (w : @world _ demo_engines)
    : raises string * @world _ demo_engines :=
  (Raises "Video unavailable", w).


Definition press_nothing : inputs :=
  {| file_path := "talk.mp4"; transcribe_button := false;
     advanced_tool := EmptyString; target_language := "ja";
     submitted := false; reload_transcribed_subs := false; selected_rows := [] |}.

(** The session of [session_beam_only] with a document entry beside it. *)
Definition session_beam_and_subs : gmap string val :=
  <[ "transcribed_subs" := VRef 0%nat ]> session_beam_only.

Example int_literal_plain : int_literal "42" = Some 42%Z.
Proof. reflexivity. Qed.
Example int_literal_blank : int_literal " -1_000 " = Some (-1000)%Z.
Proof. reflexivity. Qed.
Example int_literal_abc : int_literal "abc" = None.
Proof. reflexivity. Qed.
Example int_literal_us : int_literal "1__0" = None.
Proof. reflexivity. Qed.
Example whisper_empty :
  _get_config_from_session_state "openai/whisper" whisper_schema ∅ None = (Some ∅, None).
Proof. reflexivity. Qed.
Example whisper_giant :
  _get_config_from_session_state "openai/whisper" whisper_schema
    {[ "openai/whisper-model_type" := VStr "giant" ]} None
  = (Some {[ "model_type" := VStr "giant" ]}, None).
Proof. reflexivity. Qed.

(** * Properties *)

(** ** Keys *)

Lemma string_app_inj_l (s t1 t2 : string) : s +:+ t1 = s +:+ t2 → t1 = t2.
Proof. induction s as [|c s IH]; simpl; intros Heq; [done|]. injection Heq; auto. Qed.

(** For one model, distinct parameters have distinct keys. *)
Lemma _get_key_inj model_name : Inj (=) (=) (_get_key model_name).
Proof.
  intros c1 c2 Heq. unfold _get_key in Heq.
  by apply string_app_inj_l, string_app_inj_l in Heq.
Qed.

(** ** The coercion loop *)

Section CoercerFacts.
Context `{PyBuiltins}.

Lemma is_none_or_empty_true (v : val) :
  is_none_or_empty v = true ↔ v = VStr "None" ∨ v = VStr EmptyString.
Proof.
  destruct v as [|s| | | |]; simpl; try (split; [done|intros [?|?]; done]).
  rewrite orb_true_iff, !String.eqb_eq.
  split; [intros [->| ->]; auto|intros [?|?]; simplify_eq; auto].
Qed.

(** Coercing a coerced value again leaves it as it is, unless it is the
    null of a number. *)
Lemma coerce_again (ty : py_type) (v v' : val) :
  coerce ty v = Returns v' →
  (ty = TInt ∨ ty = TFloat → is_none_or_empty v = false) →
  coerce ty v' = Returns v'.
Proof.
  intros Hc Hnum. destruct ty; simpl in *.
  - destruct (is_none_or_empty v) eqn:E; simplify_eq; [done|]. by rewrite E.
  - by simplify_eq.
  - rewrite Hnum in Hc by auto.
    destruct (py_float v); by simplify_eq.
  - rewrite Hnum in Hc by auto.
    destruct (py_int v); by simplify_eq.
  - by simplify_eq.
  - by simplify_eq.
Qed.

(** A parameter without a raw value is left as the accumulator has it. *)
Lemma config_loop_absent model_name config_schema session_state acc model_config name :
  config_loop model_name config_schema session_state acc = Returns model_config →
  session_state !! _get_key model_name name = None →
  model_config !! name = acc !! name.
Proof.
  revert acc. induction config_schema as [|[config_name config] rest IH];
    intros acc Hloop Hnone; simpl in Hloop.
  - by simplify_eq.
  - destruct (session_state !! _get_key model_name config_name) as [v|] eqn:Hv;
      [|by eapply IH].
    destruct (coerce (type config) v) as [v'|e]; [|done].
    rewrite (IH _ Hloop Hnone). apply lookup_insert_ne.
    intros ->. congruence.
Qed.

(** A name the schema does not declare is left as the accumulator has it. *)
Lemma config_loop_outside model_name config_schema session_state acc model_config name :
  config_loop model_name config_schema session_state acc = Returns model_config →
  name ∉ config_schema.*1 →
  model_config !! name = acc !! name.
Proof.
  revert acc. induction config_schema as [|[config_name config] rest IH];
    intros acc Hloop Hout; simpl in Hloop.
  - by simplify_eq.
  - rewrite fmap_cons, not_elem_of_cons in Hout. destruct Hout as [Hne Hout].
    destruct (session_state !! _get_key model_name config_name) as [v|];
      [|by eapply IH].
    destruct (coerce (type config) v) as [v'|e]; [|done].
    rewrite (IH _ Hloop Hout). by apply lookup_insert_ne.
Qed.

(** A declared parameter with a raw value is bound to its coerced value. *)
Lemma config_loop_present model_name config_schema session_state acc model_config
    name config v :
  NoDup config_schema.*1 →
  config_loop model_name config_schema session_state acc = Returns model_config →
  (name, config) ∈ config_schema →
  session_state !! _get_key model_name name = Some v →
  ∃ v', coerce (type config) v = Returns v' ∧ model_config !! name = Some v'.
Proof.
  revert acc. induction config_schema as [|[config_name config'] rest IH];
    intros acc Hnd Hloop Hin Hv; simpl in Hloop.
  - by apply elem_of_nil in Hin.
  - rewrite fmap_cons in Hnd. apply NoDup_cons in Hnd as [Hfresh Hnd].
    simpl in Hfresh.
    apply elem_of_cons in Hin as [[= <- <-]|Hin].
    + rewrite Hv in Hloop.
      destruct (coerce (type config) v) as [v'|e]; [|done].
      exists v'. split; [done|].
      rewrite (config_loop_outside _ _ _ _ _ _ Hloop Hfresh).
      apply lookup_insert_eq.
    + destruct (session_state !! _get_key model_name config_name) as [w|];
        [|by eapply IH].
      destruct (coerce (type config') w) as [w'|e]; [|done].
      by eapply IH.
Qed.

(** The loop returns when every raw value can be coerced. *)
Lemma config_loop_returns model_name config_schema session_state acc :
  Forall (passes model_name session_state) config_schema →
  ∃ model_config,
    config_loop model_name config_schema session_state acc = Returns model_config.
Proof.
  revert acc. induction config_schema as [|[config_name config] rest IH];
    intros acc Hall; simpl.
  - by eexists.
  - apply Forall_cons in Hall as [Hhd Hall].
    destruct (session_state !! _get_key model_name config_name) as [v|] eqn:Hv;
      [|by apply IH].
    destruct (Hhd v Hv) as [v' Hc]. simpl in Hc. rewrite Hc. by apply IH.
Qed.

(** The loop raises at the first parameter, in declaration order, whose raw
    value cannot be coerced. *)
Lemma config_loop_raises model_name config_schema session_state acc name config e0 :
  (name, config) ∈ config_schema →
  offends model_name session_state name config e0 →
  ∃ before name' config' after e,
    config_schema = (before ++ (name', config') :: after)%list ∧
    Forall (passes model_name session_state) before ∧
    offends model_name session_state name' config' e ∧
    config_loop model_name config_schema session_state acc = Raises e.
Proof.
  revert acc. induction config_schema as [|[config_name config1] rest IH];
    intros acc Hin Hoff.
  - by apply elem_of_nil in Hin.
  - simpl.
    destruct (session_state !! _get_key model_name config_name) as [v|] eqn:Hv.
    + destruct (coerce (type config1) v) as [v'|e] eqn:Hc.
      * apply elem_of_cons in Hin as [[= <- <-]|Hin].
        { destruct Hoff as (w & Hw & Hcw). congruence. }
        destruct (IH (<[config_name := v']> acc) Hin Hoff)
          as (before & name' & config' & after & e & -> & Hb & Ho & Hl).
        exists ((config_name, config1) :: before), name', config', after, e.
        repeat split; [|done..].
        apply Forall_cons. split; [|done].
        intros w Hw. simpl in *. exists v'. congruence.
      * exists [], config_name, config1, rest, e.
        repeat split; [by apply Forall_nil|by exists v].
    + apply elem_of_cons in Hin as [[= <- <-]|Hin].
      { destruct Hoff as (w & Hw & _). congruence. }
      destruct (IH acc Hin Hoff)
        as (before & name' & config' & after & e & -> & Hb & Ho & Hl).
      exists ((config_name, config1) :: before), name', config', after, e.
      repeat split; [|done..].
      apply Forall_cons. split; [|done].
      intros w Hw. simpl in *. congruence.
Qed.
End CoercerFacts.

(** ** What the coercer returns *)

Section CoercerClaims.
Context `{PyBuiltins}.

(** Only [int] and [float] can make a coercion raise. *)
Lemma coerce_raises ty v e :
  coerce ty v = Raises e →
  is_none_or_empty v = false ∧
  ((ty = TInt ∧ py_int v = Raises e) ∨ (ty = TFloat ∧ py_float v = Raises e)).
Proof.
  destruct ty; simpl; destruct (is_none_or_empty v); try done.
  - destruct (py_float v) eqn:E; [done|]. intros [= ->]. split; [done|by right].
  - destruct (py_int v) eqn:E; [done|]. intros [= ->]. split; [done|by left].
Qed.

(** The function returns a config exactly when the loop returns, and then
    leaves the placeholder alone. *)
Lemma get_config_returns model_name config_schema session_state placeholder
    model_config placeholder' :
  _get_config_from_session_state model_name config_schema session_state placeholder
    = (Some model_config, placeholder') →
  config_loop model_name config_schema session_state ∅ = Returns model_config ∧
  placeholder' = placeholder.
Proof.
  unfold _get_config_from_session_state.
  destruct (config_loop _ _ _ _); intros Heq; by simplify_eq.
Qed.

(** C2, as amended.  A parameter whose key is absent from the session is
    left out of the returned config: the loop skips it, its [default] is
    not filled in, and the placeholder is untouched. *)
Theorem absent_parameter_is_omitted model_name config_schema session_state
    placeholder model_config placeholder' config_name :
  _get_config_from_session_state model_name config_schema session_state placeholder
    = (Some model_config, placeholder') →
  session_state !! _get_key model_name config_name = None →
  model_config !! config_name = None ∧ placeholder' = placeholder.
Proof.
  intros [Hloop ->]%get_config_returns Hnone. split; [|done].
  by rewrite (config_loop_absent _ _ _ _ _ _ Hloop Hnone).
Qed.

(** C3, as amended.  If the raw value of some declared parameter cannot be
    coerced, the call returns no config at all.  The schema then splits at
    the first parameter, in declaration order, whose raw value cannot be
    coerced: every parameter before it is absent or coerced without error;
    it is an integer or a real parameter whose raw value [v] is neither
    ['None'] nor [''] and on which [int], respectively [float], raises;
    and the placeholder shows the fixed heading followed by the text [e]
    of that exception and by nothing else. *)
Theorem coercion_failure_is_total model_name config_schema session_state
    placeholder config_name config e0 :
  (config_name, config) ∈ config_schema →
  offends model_name session_state config_name config e0 →
  ∃ before name' config' after v e,
    config_schema = (before ++ (name', config') :: after)%list ∧
    Forall (passes model_name session_state) before ∧
    session_state !! _get_key model_name name' = Some v ∧
    is_none_or_empty v = false ∧
    ((type config' = TInt ∧ py_int v = Raises e) ∨
     (type config' = TFloat ∧ py_float v = Raises e)) ∧
    coerce (type config') v = Raises e ∧
    _get_config_from_session_state model_name config_schema session_state placeholder
      = (None, Some (error ("Problem parsing configs!! " +:+ newline +:+ " " +:+ e))).
Proof.
  intros Hin Hoff.
  destruct (config_loop_raises model_name config_schema session_state ∅
              config_name config e0 Hin Hoff)
    as (before & name' & config' & after & e & Hsplit & Hb & (v & Hv & Hc) & Hl).
  destruct (coerce_raises _ _ _ Hc) as [Hset Hnum].
  exists before, name', config', after, v, e.
  split; [done|]. split; [done|]. split; [done|]. split; [done|].
  split; [done|]. split; [done|].
  unfold _get_config_from_session_state. by rewrite Hl.
Qed.

(** C4, as amended.  The raw value of an enumerated-choice parameter goes
    into the returned config as it is, whether or not it is one of the
    [options]. *)
Theorem choice_passes_through model_name config_schema session_state placeholder
    model_config placeholder' config_name config v :
  NoDup config_schema.*1 →
  (config_name, config) ∈ config_schema →
  type config = TList →
  session_state !! _get_key model_name config_name = Some v →
  _get_config_from_session_state model_name config_schema session_state placeholder
    = (Some model_config, placeholder') →
  model_config !! config_name = Some v.
Proof.
  intros Hnd Hin Hty Hv [Hloop _]%get_config_returns.
  destruct (config_loop_present _ _ _ _ _ _ _ _ Hnd Hloop Hin Hv) as (v' & Hc & Hl).
  rewrite Hty in Hc. simpl in Hc. by simplify_eq.
Qed.

(** C5.  For a parameter with a raw value: a text parameter maps ['None']
    and the empty text to null and keeps any other text; an integer or
    real parameter maps ['None'] and the empty text to null and any other
    value to the number that [int] or [float] makes of it. *)
Theorem coercion_by_type model_name config_schema session_state placeholder
    model_config placeholder' config_name config v :
  NoDup config_schema.*1 →
  (config_name, config) ∈ config_schema →
  session_state !! _get_key model_name config_name = Some v →
  _get_config_from_session_state model_name config_schema session_state placeholder
    = (Some model_config, placeholder') →
  (type config = TStr →
     (v = VStr "None" ∨ v = VStr EmptyString → model_config !! config_name = Some VNone) ∧
     (∀ s, v = VStr s → s ≠ "None" → s ≠ EmptyString →
           model_config !! config_name = Some (VStr s))) ∧
  (type config = TInt →
     (v = VStr "None" ∨ v = VStr EmptyString → model_config !! config_name = Some VNone) ∧
     (¬ (v = VStr "None" ∨ v = VStr EmptyString) →
        ∃ n, py_int v = Returns n ∧ model_config !! config_name = Some (VInt n))) ∧
  (type config = TFloat →
     (v = VStr "None" ∨ v = VStr EmptyString → model_config !! config_name = Some VNone) ∧
     (¬ (v = VStr "None" ∨ v = VStr EmptyString) →
        ∃ f, py_float v = Returns f ∧ model_config !! config_name = Some (VFloat f))).
Proof.
  intros Hnd Hin Hv [Hloop _]%get_config_returns.
  destruct (config_loop_present _ _ _ _ _ _ _ _ Hnd Hloop Hin Hv) as (v' & Hc & Hl).
  rewrite Hl. clear Hl Hloop.
  split; [|split]; intros Hty; rewrite Hty in Hc; simpl in Hc.
  - split.
    + intros Hn. apply (proj2 (is_none_or_empty_true v)) in Hn.
      rewrite Hn in Hc. by simplify_eq.
    + intros s -> Hs1 Hs2.
      destruct (is_none_or_empty (VStr s)) eqn:E; [|by simplify_eq].
      apply (proj1 (is_none_or_empty_true _)) in E as [?|?]; by simplify_eq.
  - split.
    + intros Hn. apply (proj2 (is_none_or_empty_true v)) in Hn.
      rewrite Hn in Hc. by simplify_eq.
    + intros Hn. destruct (is_none_or_empty v) eqn:E.
      { by apply (proj1 (is_none_or_empty_true v)) in E. }
      destruct (py_int v) as [n|]; [|done]. exists n. by simplify_eq.
  - split.
    + intros Hn. apply (proj2 (is_none_or_empty_true v)) in Hn.
      rewrite Hn in Hc. by simplify_eq.
    + intros Hn. destruct (is_none_or_empty v) eqn:E.
      { by apply (proj1 (is_none_or_empty_true v)) in E. }
      destruct (py_float v) as [f|]; [|done]. exists f. by simplify_eq.
Qed.

(** A raw value that meets its constraint is coerced without error. *)
Lemma satisfies_passes config v :
  satisfies config v → ∃ v', coerce (type config) v = Returns v'.
Proof.
  unfold satisfies. destruct (type config); simpl; intros Hs.
  - destruct (is_none_or_empty v); by eexists.
  - by eexists.
  - destruct (is_none_or_empty v) eqn:E; [by eexists|].
    destruct Hs as [?|[f ->]]; [done|by eexists].
  - destruct (is_none_or_empty v) eqn:E; [by eexists|].
    destruct Hs as [?|[n ->]]; [done|by eexists].
  - by eexists.
  - by eexists.
Qed.

Lemma well_typed_passes model_name config_schema session_state :
  well_typed model_name config_schema session_state →
  Forall (passes model_name session_state) config_schema.
Proof.
  intros Hwt. apply Forall_forall. intros [config_name config] Hin v Hv.
  simpl in *. eapply satisfies_passes, Hwt; eauto.
Qed.

(** C6, as amended.  On raw values that meet their constraints the call
    returns a config; and when no integer or real parameter was given
    ['None'] or the empty text, feeding that config back as raw input
    returns the same config. *)
Theorem coercion_idempotent_on_set_numbers model_name config_schema session_state
    placeholder :
  NoDup config_schema.*1 →
  well_typed model_name config_schema session_state →
  ∃ model_config,
    _get_config_from_session_state model_name config_schema session_state placeholder
      = (Some model_config, placeholder) ∧
    (numbers_set model_name config_schema session_state →
     _get_config_from_session_state model_name config_schema
       (reserialize model_name model_config) placeholder
       = (Some model_config, placeholder)).
Proof.
  intros Hnd Hwt.
  destruct (config_loop_returns model_name config_schema session_state ∅
              (well_typed_passes _ _ _ Hwt)) as [model_config Hloop].
  exists model_config. unfold _get_config_from_session_state. rewrite Hloop.
  split; [done|]. intros Hset.
  assert (Hback : ∀ name, reserialize model_name model_config
                            !! _get_key model_name name = model_config !! name).
  { intros name. unfold reserialize.
    pose proof (_get_key_inj model_name) as Hinj.
    apply (lookup_kmap (_get_key model_name)). }
  assert (Hfix : ∀ name config v', (name, config) ∈ config_schema →
            model_config !! name = Some v' → coerce (type config) v' = Returns v').
  { intros name config v' Hin Hl.
    destruct (session_state !! _get_key model_name name) as [v|] eqn:Hv.
    - destruct (config_loop_present _ _ _ _ _ _ _ _ Hnd Hloop Hin Hv)
        as (w & Hc & Hw).
      assert (w = v') by congruence. subst w.
      eapply coerce_again; [done|]. intros Hty. by eapply Hset.
    - rewrite (config_loop_absent _ _ _ _ _ _ Hloop Hv), lookup_empty in Hl.
      done. }
  destruct (config_loop_returns model_name config_schema
              (reserialize model_name model_config) ∅) as [again Hagain].
  { apply Forall_forall. intros [name config] Hin v' Hv'. simpl in *.
    rewrite Hback in Hv'. exists v'. by eapply Hfix. }
  rewrite Hagain. do 2 f_equal. apply map_eq. intros name.
  destruct (decide (name ∈ config_schema.*1)) as [Hdecl|Hout].
  - apply list_elem_of_fmap_1 in Hdecl as ([name' config] & -> & Hin). simpl.
    destruct (model_config !! name') as [v'|] eqn:Hl.
    + assert (Hv' : reserialize model_name model_config
                      !! _get_key model_name name' = Some v')
        by (by rewrite Hback).
      destruct (config_loop_present _ _ _ _ _ _ _ _ Hnd Hagain Hin Hv')
        as (w & Hc & Hw).
      rewrite (Hfix _ _ _ Hin Hl) in Hc. by simplify_eq.
    + assert (Hv' : reserialize model_name model_config
                      !! _get_key model_name name' = None)
        by (by rewrite Hback).
      by rewrite (config_loop_absent _ _ _ _ _ _ Hagain Hv').
  - rewrite (config_loop_outside _ _ _ _ _ _ Hagain Hout).
    by rewrite (config_loop_outside _ _ _ _ _ _ Hloop Hout).
Qed.

(** C10.  [_get_key] is not injective on pairs: model ["a-b"] with
    parameter ["c"] and model ["a"] with parameter ["b-c"] share one key,
    so the raw value stored for the one is read as the raw value of the
    other. *)
Theorem _get_key_not_injective :
  ("a-b", "c") ≠ ("a", "b-c") ∧
  _get_key "a-b" "c" = _get_key "a" "b-c" ∧
  ¬ (∀ m1 c1 m2 c2, _get_key m1 c1 = _get_key m2 c2 → (m1, c1) = (m2, c2)) ∧
  ∀ (v : val) placeholder,
    _get_config_from_session_state "a"
      [("b-c", {| type := TBool; description := "a flag";
                  options := None; default := VBool false |})]
      {[ _get_key "a-b" "c" := v ]} placeholder
    = (Some {[ "b-c" := v ]}, placeholder).
Proof.
  split; [done|]. split; [done|]. split.
  - intros Hinj. by specialize (Hinj "a-b" "c" "a" "b-c" eq_refl).
  - intros v placeholder.
    unfold _get_config_from_session_state. simpl.
    change (_get_key "a" "b-c") with (_get_key "a-b" "c").
    rewrite lookup_singleton_eq. simpl. by rewrite insert_empty.
Qed.
End CoercerClaims.

(** ** The coercer on concrete sessions *)

Lemma decoding_schema_nodup : NoDup decoding_schema.*1.
Proof. apply (bool_decide_unpack _). by vm_compute. Qed.

Lemma whisper_schema_nodup : NoDup whisper_schema.*1.
Proof. apply (bool_decide_unpack _). by vm_compute. Qed.

(** Only [beam_size] has a raw value: [best_of] is not in the config. *)
Lemma absent_parameter_is_omitted_witness :
  ({[ "beam_size" := VInt 7 ]} : gmap string val) !! "best_of" = None ∧
  (None : option notice) = None.
Proof.
  apply (absent_parameter_is_omitted "openai/whisper" decoding_schema
           session_beam_only None {[ "beam_size" := VInt 7 ]} None "best_of").
  - reflexivity.
  - reflexivity.
Defined.

(** C2, as stated, fails: with no raw value for [model_type] the whisper
    schema yields the empty config, not one binding [model_type] to its
    default ['base']. *)
Lemma absent_parameter_not_defaulted :
  ¬ (∀ model_name (config_schema : list (string * spec))
       (session_state : gmap string val) placeholder model_config placeholder'
       config_name config,
       (config_name, config) ∈ config_schema →
       session_state !! _get_key model_name config_name = None →
       _get_config_from_session_state model_name config_schema session_state placeholder
         = (Some model_config, placeholder') →
       model_config !! config_name = Some (default config)).
Proof.
  intros Hclaim.
  specialize (Hclaim "openai/whisper" whisper_schema ∅ None ∅ None "model_type"
    {| type := TList; description := "model size";
       options := Some [VStr "tiny"; VStr "base"; VStr "small"];
       default := VStr "base" |}).
  assert (Hbad : (∅ : gmap string val) !! "model_type" = Some (VStr "base")).
  { apply Hclaim; [by apply list_elem_of_here|done|done]. }
  by rewrite lookup_empty in Hbad.
Qed.

(** [best_of] is given ['abc']: the call returns no config and shows the
    text [int] raised. *)
Lemma coercion_failure_is_total_witness :
  ∃ before name' config' after v e,
    decoding_schema = (before ++ (name', config') :: after)%list ∧
    Forall (passes "openai/whisper" session_bad_best) before ∧
    session_bad_best !! _get_key "openai/whisper" name' = Some v ∧
    is_none_or_empty v = false ∧
    ((type config' = TInt ∧ py_int v = Raises e) ∨
     (type config' = TFloat ∧ py_float v = Raises e)) ∧
    coerce (type config') v = Raises e ∧
    _get_config_from_session_state "openai/whisper" decoding_schema
      session_bad_best None
      = (None, Some (error ("Problem parsing configs!! " +:+ newline +:+ " " +:+ e))).
Proof.
  apply (coercion_failure_is_total "openai/whisper" decoding_schema
           session_bad_best None "best_of"
           {| type := TInt; description := "number of candidates";
              options := None; default := VInt 5 |} invalid_abc).
  - apply list_elem_of_further, list_elem_of_here.
  - exists (VStr "abc"). split; reflexivity.
Defined.

(** C3, as stated, fails: the error shown for the bad [beam_size] does not
    contain the name of that parameter. *)
Lemma coercion_failure_does_not_name_parameter :
  ¬ (∀ model_name (config_schema : list (string * spec))
       (session_state : gmap string val) placeholder config_name config e,
       (config_name, config) ∈ config_schema →
       offends model_name session_state config_name config e →
       ∃ body,
         _get_config_from_session_state model_name config_schema session_state
           placeholder = (None, Some (error body)) ∧
         is_infix config_name body = true).
Proof.
  intros Hclaim.
  destruct (Hclaim "openai/whisper" decoding_schema session_bad_beam None
              "beam_size"
              {| type := TInt; description := "number of beams";
                 options := None; default := VInt 5 |} invalid_abc)
    as (body & Hret & Hnamed).
  - apply list_elem_of_here.
  - exists (VStr "abc"). split; reflexivity.
  - assert (Hrun : _get_config_from_session_state "openai/whisper" decoding_schema
                     session_bad_beam None
                   = (None, Some (error ("Problem parsing configs!! " +:+ newline
                                          +:+ " " +:+ invalid_abc))))
      by reflexivity.
    rewrite Hrun in Hret. injection Hret as <-. vm_compute in Hnamed. discriminate.
Qed.

(** Whichever of the two parameters is given ['abc'], the call leaves the
    same placeholder behind. *)
Lemma coercion_failure_same_for_both :
  _get_config_from_session_state "openai/whisper" decoding_schema session_bad_beam None
  = _get_config_from_session_state "openai/whisper" decoding_schema session_bad_best None.
Proof. reflexivity. Qed.

(** The text shown is that of the exception and depends on the raw value
    alone: given the text ['beam_size'] as raw value, it quotes that
    text. *)
Example coercion_failure_quotes_raw_value :
  _get_config_from_session_state "openai/whisper" decoding_schema session_named_beam None
  = (None,
     Some (error ("Problem parsing configs!! " +:+ newline +:+ " "
                  +:+ "invalid literal for int() with base 10: 'beam_size'"))).
Proof. reflexivity. Qed.

(** ['giant'] for [model_type] goes into the config. *)
Lemma choice_passes_through_witness :
  ({[ "model_type" := VStr "giant" ]} : gmap string val) !! "model_type"
  = Some (VStr "giant").
Proof.
  apply (choice_passes_through "openai/whisper" whisper_schema session_giant None
           {[ "model_type" := VStr "giant" ]} None "model_type"
           {| type := TList; description := "model size";
              options := Some [VStr "tiny"; VStr "base"; VStr "small"];
              default := VStr "base" |} (VStr "giant")).
  - exact whisper_schema_nodup.
  - apply list_elem_of_here.
  - reflexivity.
  - reflexivity.
  - reflexivity.
Defined.

(** C4, as stated, fails: ['giant'] is none of [tiny], [base], [small], yet
    the call returns a config. *)
Lemma choice_outside_options_accepted :
  ¬ (∀ model_name (config_schema : list (string * spec))
       (session_state : gmap string val) placeholder config_name config opts v,
       (config_name, config) ∈ config_schema →
       type config = TList →
       options config = Some opts →
       session_state !! _get_key model_name config_name = Some v →
       v ∉ opts →
       (_get_config_from_session_state model_name config_schema session_state
          placeholder).1 = None).
Proof.
  intros Hclaim.
  specialize (Hclaim "openai/whisper" whisper_schema session_giant None "model_type"
    {| type := TList; description := "model size";
       options := Some [VStr "tiny"; VStr "base"; VStr "small"];
       default := VStr "base" |}
    [VStr "tiny"; VStr "base"; VStr "small"] (VStr "giant")).
  assert (Hbad : (_get_config_from_session_state "openai/whisper" whisper_schema
                    session_giant None).1 = None).
  { apply Hclaim; [by apply list_elem_of_here|done|done|reflexivity|].
    rewrite !not_elem_of_cons. repeat split; [done..|apply not_elem_of_nil]. }
  assert (Hrun : _get_config_from_session_state "openai/whisper" whisper_schema
                   session_giant None
                 = (Some {[ "model_type" := VStr "giant" ]}, None))
    by reflexivity.
  rewrite Hrun in Hbad. discriminate.
Qed.

(** [beam_size] is an integer parameter given ['7']: the config binds it to
    the integer 7. *)
Lemma coercion_by_type_witness :
  ∃ n, py_int (VStr "7") = Returns n ∧
       ({[ "beam_size" := VInt 7 ]} : gmap string val) !! "beam_size" = Some (VInt n).
Proof.
  refine (proj2 (proj1 (proj2
    (coercion_by_type "openai/whisper" decoding_schema session_beam_only None
       {[ "beam_size" := VInt 7 ]} None "beam_size"
       {| type := TInt; description := "number of beams";
          options := None; default := VInt 5 |} (VStr "7") _ _ _ _)) _) _).
  - exact decoding_schema_nodup.
  - apply list_elem_of_here.
  - reflexivity.
  - reflexivity.
  - reflexivity.
  - intros [?|?]; discriminate.
Defined.

Lemma session_beam_only_well_typed :
  well_typed "openai/whisper" decoding_schema session_beam_only.
Proof.
  intros name config v Hin Hv.
  apply elem_of_cons in Hin as [[= -> ->]|Hin].
  - assert (E : session_beam_only !! _get_key "openai/whisper" "beam_size"
                = Some (VStr "7")) by reflexivity.
    rewrite E in Hv. injection Hv as <-. right. exists 7%Z. reflexivity.
  - apply list_elem_of_singleton in Hin as [= -> ->].
    assert (E : session_beam_only !! _get_key "openai/whisper" "best_of" = None)
      by reflexivity.
    rewrite E in Hv. discriminate.
Qed.

Lemma session_beam_only_numbers_set :
  numbers_set "openai/whisper" decoding_schema session_beam_only.
Proof.
  intros name config v Hin _ Hv.
  apply elem_of_cons in Hin as [[= -> ->]|Hin].
  - assert (E : session_beam_only !! _get_key "openai/whisper" "beam_size"
                = Some (VStr "7")) by reflexivity.
    rewrite E in Hv. by injection Hv as <-.
  - apply list_elem_of_singleton in Hin as [= -> ->].
    assert (E : session_beam_only !! _get_key "openai/whisper" "best_of" = None)
      by reflexivity.
    rewrite E in Hv. discriminate.
Qed.

(** With ['7'] for [beam_size] the call returns a config, and returns it
    again when that config is fed back. *)
Lemma coercion_idempotent_on_set_numbers_witness :
  ∃ model_config,
    _get_config_from_session_state "openai/whisper" decoding_schema
      session_beam_only None = (Some model_config, None) ∧
    (numbers_set "openai/whisper" decoding_schema session_beam_only →
     _get_config_from_session_state "openai/whisper" decoding_schema
       (reserialize "openai/whisper" model_config) None
       = (Some model_config, None)).
Proof.
  apply (coercion_idempotent_on_set_numbers "openai/whisper" decoding_schema
           session_beam_only None).
  - exact decoding_schema_nodup.
  - exact session_beam_only_well_typed.
Defined.

Lemma session_unset_beam_well_typed :
  well_typed "openai/whisper" decoding_schema session_unset_beam.
Proof.
  intros name config v Hin Hv.
  apply elem_of_cons in Hin as [[= -> ->]|Hin].
  - assert (E : session_unset_beam !! _get_key "openai/whisper" "beam_size"
                = Some (VStr EmptyString)) by reflexivity.
    rewrite E in Hv. injection Hv as <-. by left.
  - apply list_elem_of_singleton in Hin as [= -> ->].
    assert (E : session_unset_beam !! _get_key "openai/whisper" "best_of" = None)
      by reflexivity.
    rewrite E in Hv. discriminate.
Qed.

(** The two calls of that run. *)
Example unset_beam_first :
  _get_config_from_session_state "openai/whisper" decoding_schema session_unset_beam None
  = (Some {[ "beam_size" := VNone ]}, None).
Proof. reflexivity. Qed.

Example unset_beam_second :
  _get_config_from_session_state "openai/whisper" decoding_schema
    (reserialize "openai/whisper" {[ "beam_size" := VNone ]}) None
  = (None,
     Some (error ("Problem parsing configs!! " +:+ newline +:+ " " +:+
       "int() argument must be a string, a bytes-like object or a real number, not 'NoneType'"))).
Proof. reflexivity. Qed.

(** C6, as stated, fails: the empty text for the integer [beam_size] meets
    its constraint and resolves to null, and null fed back makes [int]
    raise, so the second call returns no config. *)
Lemma coercion_not_idempotent_on_unset_number :
  ¬ (∀ model_name (config_schema : list (string * spec))
       (session_state : gmap string val) placeholder,
       NoDup config_schema.*1 →
       well_typed model_name config_schema session_state →
       ∃ model_config,
         _get_config_from_session_state model_name config_schema session_state
           placeholder = (Some model_config, placeholder) ∧
         _get_config_from_session_state model_name config_schema
           (reserialize model_name model_config) placeholder
           = (Some model_config, placeholder)).
Proof.
  intros Hclaim.
  destruct (Hclaim "openai/whisper" decoding_schema session_unset_beam None
              decoding_schema_nodup session_unset_beam_well_typed)
    as (model_config & Hfirst & Hsecond).
  rewrite unset_beam_first in Hfirst.
  assert (Hcfg : model_config = {[ "beam_size" := VNone ]}) by congruence.
  rewrite Hcfg, unset_beam_second in Hsecond. discriminate.
Qed.

(** ** The memoised calls *)

Section Counting.
Context {K : Type} `{EqDecision K}.

Lemma attempts_cons (k k' : K) (b : bool) (log : list (K * bool)) :
  attempts k ((k', b) :: log)
  = if decide (k' = k) then S (attempts k log) else attempts k log.
Proof. unfold attempts. rewrite filter_cons. simpl. by destruct (decide (k' = k)). Qed.

Lemma completed_cons (k k' : K) (b : bool) (log : list (K * bool)) :
  completed k ((k', b) :: log)
  = if decide ((k', b) = (k, true)) then S (completed k log) else completed k log.
Proof.
  unfold completed. rewrite filter_cons.
  by destruct (decide ((k', b) = (k, true))).
Qed.

Lemma assoc_cons {V : Type} (k k' : K) (v : V) (c : list (K * V)) :
  assoc k ((k', v) :: c) = if decide (k' = k) then Some v else assoc k c.
Proof. reflexivity. Qed.
End Counting.

Section PipelineFacts.
Context `{Engines}.

Lemma consistent_hit_or_miss {K V : Type} `{EqDecision K}
    (cache : list (K * V)) (log : list (K * bool)) (k : K) (v : V) (b : bool) :
  consistent cache log →
  assoc k cache = None →
  consistent (if b then (k, v) :: cache else cache) ((k, b) :: log).
Proof.
  intros Hc Hmiss k0. destruct (Hc k0) as [Hzero Hone].
  rewrite completed_cons. destruct b.
  - rewrite assoc_cons. destruct (decide (k = k0)) as [->|Hne].
    + rewrite decide_True by done. split; [done|]. rewrite (Hzero Hmiss). lia.
    + rewrite decide_False by congruence. done.
  - rewrite decide_False by congruence. done.
Qed.

Lemma _transcribe_hit file_path model_name model_config p subs :
  assoc (file_path, model_name, model_config) (data_cache p) = Some subs →
  _transcribe file_path model_name model_config p = (Returns subs, p).
Proof. intros Hhit. unfold _transcribe, cache_data. by rewrite Hhit. Qed.

Lemma _create_translation_model_hit model_name p tm :
  assoc model_name (resource_cache p) = Some tm →
  _create_translation_model model_name p = (Returns tm, p).
Proof. intros Hhit. unfold _create_translation_model, cache_resource. by rewrite Hhit. Qed.

(** What a call that returns leaves in the cache. *)
Lemma _transcribe_returns file_path model_name model_config p subs p1 :
  _transcribe file_path model_name model_config p = (Returns subs, p1) →
  assoc (file_path, model_name, model_config) (data_cache p1) = Some subs.
Proof.
  unfold _transcribe, cache_data.
  destruct (assoc _ (data_cache p)) as [cached|] eqn:Hc.
  - intros [= <- <-]. done.
  - destruct (transcribe_body _ _) as [[document|e] w]; intros [= <- <-]; simpl.
    by rewrite decide_True.
Qed.

Lemma _create_translation_model_returns model_name p tm p1 :
  _create_translation_model model_name p = (Returns tm, p1) →
  assoc model_name (resource_cache p1) = Some tm.
Proof.
  unfold _create_translation_model, cache_resource.
  destruct (assoc _ (resource_cache p)) as [cached|] eqn:Hc.
  - intros [= <- <-]. done.
  - destruct (create_translation_model _ _) as [[created|e] w]; intros [= <- <-]; simpl.
    by rewrite decide_True.
Qed.

(** A cached transcription survives every call, and its body is not
    entered again. *)
Lemma serve_keeps_transcription r p key subs :
  assoc key (data_cache p) = Some subs →
  assoc key (data_cache (serve r p)) = Some subs ∧
  attempts key (transcriptions (serve r p)) = attempts key (transcriptions p).
Proof.
  intros Hhit. destruct r as [file_path model_name model_config|model_name]; simpl.
  - unfold _transcribe, cache_data.
    destruct (assoc (file_path, model_name, model_config) (data_cache p))
      as [cached|] eqn:Hc; [done|].
    assert (Hne : (file_path, model_name, model_config) ≠ key) by congruence.
    destruct (transcribe_body _ _) as [[document|e] w]; simpl;
      rewrite attempts_cons, decide_False by done; [|done].
    by rewrite decide_False.
  - unfold _create_translation_model, cache_resource.
    destruct (assoc model_name (resource_cache p)); [done|].
    by destruct (create_translation_model _ _) as [[created|e] w].
Qed.

Lemma serve_keeps_translation_model r p model_name tm :
  assoc model_name (resource_cache p) = Some tm →
  assoc model_name (resource_cache (serve r p)) = Some tm ∧
  attempts model_name (initialisations (serve r p))
  = attempts model_name (initialisations p).
Proof.
  intros Hhit. destruct r as [file_path name model_config|name]; simpl.
  - unfold _transcribe, cache_data.
    destruct (assoc _ (data_cache p)); [done|].
    by destruct (transcribe_body _ _) as [[document|e] w].
  - unfold _create_translation_model, cache_resource.
    destruct (assoc name (resource_cache p)) as [cached|] eqn:Hc; [done|].
    assert (Hne : name ≠ model_name) by congruence.
    destruct (create_translation_model _ _) as [[created|e] w]; simpl;
      rewrite attempts_cons, decide_False by done; [|done].
    by rewrite decide_False.
Qed.

Lemma serve_all_keeps_transcription rs p key subs :
  assoc key (data_cache p) = Some subs →
  assoc key (data_cache (serve_all rs p)) = Some subs ∧
  attempts key (transcriptions (serve_all rs p)) = attempts key (transcriptions p).
Proof.
  revert p. induction rs as [|r rs IH]; intros p Hhit; [done|].
  destruct (serve_keeps_transcription r p key subs Hhit) as [Hhit' Hsame].
  destruct (IH (serve r p) Hhit') as [? ?]. simpl. split; [done|congruence].
Qed.

Lemma serve_all_keeps_translation_model rs p model_name tm :
  assoc model_name (resource_cache p) = Some tm →
  assoc model_name (resource_cache (serve_all rs p)) = Some tm ∧
  attempts model_name (initialisations (serve_all rs p))
  = attempts model_name (initialisations p).
Proof.
  revert p. induction rs as [|r rs IH]; intros p Hhit; [done|].
  destruct (serve_keeps_translation_model r p model_name tm Hhit) as [Hhit' Hsame].
  destruct (IH (serve r p) Hhit') as [? ?]. simpl. split; [done|congruence].
Qed.

(** Every call keeps both caches consistent with their traces. *)
Lemma serve_consistent r p :
  consistent (data_cache p) (transcriptions p) ∧
  consistent (resource_cache p) (initialisations p) →
  consistent (data_cache (serve r p)) (transcriptions (serve r p)) ∧
  consistent (resource_cache (serve r p)) (initialisations (serve r p)).
Proof.
  intros [Hd Hr]. destruct r as [file_path model_name model_config|model_name]; simpl.
  - unfold _transcribe, cache_data.
    destruct (assoc _ (data_cache p)) as [cached|] eqn:Hc; [done|].
    destruct (transcribe_body _ _) as [[document|e] w]; simpl; (split; [|done]).
    + by apply (consistent_hit_or_miss _ _ _ document true).
    + by apply (consistent_hit_or_miss _ _ _ [] false).
  - unfold _create_translation_model, cache_resource.
    destruct (assoc _ (resource_cache p)) as [cached|] eqn:Hc; [done|].
    destruct (create_translation_model _ _) as [[created|e] w] eqn:Hb; simpl;
      (split; [done|]).
    + by apply (consistent_hit_or_miss _ _ _ created true).
    + intros k. destruct (Hr k) as [Hzero Hone].
      rewrite completed_cons, decide_False by congruence. done.
Qed.

Lemma serve_all_consistent rs p :
  consistent (data_cache p) (transcriptions p) ∧
  consistent (resource_cache p) (initialisations p) →
  consistent (data_cache (serve_all rs p)) (transcriptions (serve_all rs p)) ∧
  consistent (resource_cache (serve_all rs p)) (initialisations (serve_all rs p)).
Proof.
  revert p. induction rs as [|r rs IH]; intros p Hc; [done|].
  simpl. by apply IH, serve_consistent.
Qed.

Lemma fresh_process_consistent w :
  consistent (data_cache (fresh_process w)) (transcriptions (fresh_process w)) ∧
  consistent (resource_cache (fresh_process w)) (initialisations (fresh_process w)).
Proof. split; intros k; simpl; unfold completed; simpl; split; [done|lia|done|lia]. Qed.
End PipelineFacts.

Section PipelineClaims.
Context `{Engines}.

(** C1.  After a first call of [_transcribe] that misses the cache and
    returns a document, and after any further calls, a call with an equal
    (path, model, config) triple returns that same document without
    entering the body again, so the body has run exactly once for the
    triple; a call with another config for the same path and model, not
    cached either, enters the body once more and returns what the body
    returns.  From a fresh process no triple is ever completed twice. *)
Theorem transcribe_memoised file_path model_name model_config p subs p1 :
  assoc (file_path, model_name, model_config) (data_cache p) = None →
  _transcribe file_path model_name model_config p = (Returns subs, p1) →
  (∀ rs, let p2 := serve_all rs p1 in
     _transcribe file_path model_name model_config p2 = (Returns subs, p2) ∧
     attempts (file_path, model_name, model_config) (transcriptions p2)
     = S (attempts (file_path, model_name, model_config) (transcriptions p))) ∧
  (∀ model_config',
     model_config' ≠ model_config →
     assoc (file_path, model_name, model_config') (data_cache p) = None →
     ∃ r p3,
       _transcribe file_path model_name model_config' p1 = (r, p3) ∧
       (r, env p3) = transcribe_body (file_path, model_name, model_config') (env p1) ∧
       attempts (file_path, model_name, model_config') (transcriptions p3)
       = S (attempts (file_path, model_name, model_config') (transcriptions p1))) ∧
  (∀ w rs key,
     (completed key (transcriptions (serve_all rs (fresh_process w))) ≤ 1)%nat).
Proof.
  intros Hmiss Hfirst. split; [|split].
  - intros rs p2.
    pose proof (_transcribe_returns _ _ _ _ _ _ Hfirst) as Hcached.
    destruct (serve_all_keeps_transcription rs p1 _ subs Hcached) as [Hstill Hsame].
    split; [by apply _transcribe_hit|].
    subst p2. rewrite Hsame. clear Hsame Hstill Hcached.
    unfold _transcribe, cache_data in Hfirst. rewrite Hmiss in Hfirst.
    destruct (transcribe_body _ _) as [[document|e] w]; simplify_eq. simpl.
    by rewrite attempts_cons, decide_True.
  - intros model_config' Hne Hmiss'.
    assert (Hmiss1 : assoc (file_path, model_name, model_config') (data_cache p1) = None).
    { unfold _transcribe, cache_data in Hfirst. rewrite Hmiss in Hfirst.
      destruct (transcribe_body _ _) as [[document|e] w]; simplify_eq. simpl.
      rewrite decide_False by congruence. done. }
    unfold _transcribe, cache_data. rewrite Hmiss1.
    destruct (transcribe_body _ (env p1)) as [[document|e] w]; eexists _, _;
      (split; [reflexivity|]); simpl; (split; [done|]);
      by rewrite attempts_cons, decide_True.
  - intros w rs key.
    destruct (serve_all_consistent rs (fresh_process w) (fresh_process_consistent w))
      as [Hd _].
    apply Hd.
Qed.

(** C9.  After a call of [_create_translation_model] that returns an
    instance, and after any further calls, a call with the same identifier
    returns that very instance without entering the body again; the first
    call entered it at most once; and from a fresh process no identifier's
    backend is ever completed twice. *)
Theorem translation_model_memoised model_name p tm p1 :
  _create_translation_model model_name p = (Returns tm, p1) →
  (∀ rs, let p2 := serve_all rs p1 in
     _create_translation_model model_name p2 = (Returns tm, p2) ∧
     attempts model_name (initialisations p2)
     = attempts model_name (initialisations p1)) ∧
  (attempts model_name (initialisations p1)
   ≤ S (attempts model_name (initialisations p)))%nat ∧
  (∀ w rs name,
     (completed name (initialisations (serve_all rs (fresh_process w))) ≤ 1)%nat).
Proof.
  intros Hfirst. split; [|split].
  - intros rs p2.
    pose proof (_create_translation_model_returns _ _ _ _ Hfirst) as Hcached.
    destruct (serve_all_keeps_translation_model rs p1 _ tm Hcached) as [Hstill Hsame].
    split; [by apply _create_translation_model_hit|done].
  - unfold _create_translation_model, cache_resource in Hfirst.
    destruct (assoc _ (resource_cache p)).
    + simplify_eq. lia.
    + destruct (create_translation_model _ _) as [[created|e] w]; simplify_eq. simpl.
      rewrite attempts_cons, decide_True by done. lia.
  - intros w rs name.
    destruct (serve_all_consistent rs (fresh_process w) (fresh_process_consistent w))
      as [_ Hr].
    apply Hr.
Qed.
End PipelineClaims.

(** ** The memoised calls on the demo engines *)

(** Transcribing ["talk.mp4"] with the empty config from a fresh process. *)
Lemma transcribe_memoised_witness :
  (∀ rs, let p2 := serve_all rs after_talk in
     _transcribe "talk.mp4" "openai/whisper" (Some ∅) p2 = (Returns talk_subs, p2) ∧
     attempts ("talk.mp4", "openai/whisper", Some ∅) (transcriptions p2)
     = S (attempts ("talk.mp4", "openai/whisper", Some ∅)
            (transcriptions demo_start))) ∧
  (∀ model_config',
     model_config' ≠ Some ∅ →
     assoc ("talk.mp4", "openai/whisper", model_config')
       (data_cache demo_start) = None →
     ∃ r p3,
       _transcribe "talk.mp4" "openai/whisper" model_config' after_talk = (r, p3) ∧
       (r, env p3)
       = transcribe_body ("talk.mp4", "openai/whisper", model_config') (env after_talk) ∧
       attempts ("talk.mp4", "openai/whisper", model_config') (transcriptions p3)
       = S (attempts ("talk.mp4", "openai/whisper", model_config')
              (transcriptions after_talk))) ∧
  (∀ w rs key,
     (completed key (transcriptions (serve_all rs (fresh_process w))) ≤ 1)%nat).
Proof.
  apply (transcribe_memoised "talk.mp4" "openai/whisper" (Some ∅)
           demo_start talk_subs after_talk).
  - reflexivity.
  - reflexivity.
Defined.

(** Two equal calls and one with another config: the body runs twice. *)
Example transcribe_three_calls :
  transcriptions
    (serve_all
       [ReqTranscribe "talk.mp4" "openai/whisper" (Some ∅);
        ReqTranscribe "talk.mp4" "openai/whisper" (Some ∅);
        ReqTranscribe "talk.mp4" "openai/whisper"
          (Some {[ "model_type" := VStr "tiny" ]})]
       demo_start)
  = [ (("talk.mp4", "openai/whisper", Some {[ "model_type" := VStr "tiny" ]}), true);
      (("talk.mp4", "openai/whisper", Some ∅), true) ].
Proof. reflexivity. Qed.

(** Asking for the backend ["google"] from a fresh process. *)
Lemma translation_model_memoised_witness :
  (∀ rs, let p2 := serve_all rs after_google in
     _create_translation_model "google" p2 = (Returns 0%nat, p2) ∧
     attempts "google" (initialisations p2)
     = attempts "google" (initialisations after_google)) ∧
  (attempts "google" (initialisations after_google)
   ≤ S (attempts "google" (initialisations demo_start)))%nat ∧
  (∀ w rs name,
     (completed name (initialisations (serve_all rs (fresh_process w))) ≤ 1)%nat).
Proof.
  apply (translation_model_memoised "google" demo_start 0%nat after_google).
  reflexivity.
Defined.

(** Without the cache a second construction would be another instance. *)
Example translation_model_twice :
  (create_translation_model (Engines := demo_engines) "google" 0%nat).1
  = Returns 0%nat ∧
  (create_translation_model (Engines := demo_engines) "google" 1%nat).1
  = Returns 1%nat ∧
  (_create_translation_model "google" after_google).1 = Returns 0%nat.
Proof. cbv zeta. repeat split; reflexivity. Qed.

(** ** Subtitle documents in the session *)

Lemma py_index_in_bounds (len : nat) (i : Z) :
  (- Z.of_nat len ≤ i < Z.of_nat len)%Z →
  py_index len i
  = Some (Z.to_nat (if (i <? 0)%Z then (i + Z.of_nat len)%Z else i)) ∧
  (Z.to_nat (if (i <? 0)%Z then (i + Z.of_nat len)%Z else i) < len)%nat.
Proof.
  intros Hi. unfold py_index.
  destruct (i <? 0)%Z eqn:Hneg; [apply Z.ltb_lt in Hneg|apply Z.ltb_ge in Hneg].
  - rewrite (proj2 (Z.leb_le 0 _)), (proj2 (Z.ltb_lt _ _)) by lia. split; [done|lia].
  - rewrite (proj2 (Z.leb_le 0 _)), (proj2 (Z.ltb_lt _ _)) by lia. split; [done|lia].
Qed.

Lemma py_index_out_of_bounds (len : nat) (i : Z) :
  (i < - Z.of_nat len ∨ Z.of_nat len ≤ i)%Z → py_index len i = None.
Proof.
  intros Hi. unfold py_index.
  destruct (i <? 0)%Z eqn:Hneg; [apply Z.ltb_lt in Hneg|apply Z.ltb_ge in Hneg].
  - rewrite (proj2 (Z.leb_gt 0 _)) by lia. done.
  - rewrite (proj2 (Z.ltb_ge _ _)) by lia. by rewrite andb_false_r.
Qed.

Section SessionClaims.
Context `{Engines}.

(** The two ways out of the edit of the first selected row. *)
Lemma change_subs_block_returns (u : session) (l : loc) (subs subs' : SSAFile)
    (i : Z) (new_text : string) (others : list (Z * string)) :
  session_state u !! "transcribed_subs" = Some (VRef l) →
  heap u !! l = Some subs →
  edit_text subs i new_text = Returns subs' →
  change_subs_block ((i, new_text) :: others) u
  = {| session_state :=
         <["transcribed_subs" := VRef l]>
           (<["selected_row_idx" := VInt i]> (session_state u));
       heap := <[l := subs']> (heap u); proc := proc u;
       notification_placeholder := notification_placeholder u;
       page := page u |}.
Proof.
  intros Hactive Hobj Hedit. unfold change_subs_block.
  rewrite lookup_insert_ne by done. by rewrite Hactive, Hobj, Hedit.
Qed.

Lemma change_subs_block_raises (u : session) (l : loc) (subs : SSAFile)
    (i : Z) (new_text : string) (others : list (Z * string)) (e : string) :
  session_state u !! "transcribed_subs" = Some (VRef l) →
  heap u !! l = Some subs →
  edit_text subs i new_text = Raises e →
  change_subs_block ((i, new_text) :: others) u
  = {| session_state := <["selected_row_idx" := VInt i]> (session_state u);
       heap := heap u; proc := proc u;
       notification_placeholder := Some (error "Error parsing subs!");
       page := page u |}.
Proof.
  intros Hactive Hobj Hedit. unfold change_subs_block.
  rewrite lookup_insert_ne by done. by rewrite Hactive, Hobj, Hedit.
Qed.

(** C8, as amended.  For a session whose active document is the object
    [l] with [len] events [subs].  Every index [i] with [-len ≤ i < len]
    designates an event by Python indexing, the event [i] if [0 ≤ i] and
    the event [len + i] if [i < 0]: the edit returns, and it changes the
    text of that event and nothing else, neither the times of any event
    nor the text of any other event nor any other object.  Every index
    [i] with [i < -len] or [len ≤ i] makes the edit raise: the object
    store is left as it was and the error is shown. *)
Theorem edit_text_frame (u : session) (l : loc) (subs : SSAFile)
    (new_text : string) (others : list (Z * string)) :
  session_state u !! "transcribed_subs" = Some (VRef l) →
  heap u !! l = Some subs →
  let len := Z.of_nat (length subs) in
  (∀ i : Z, (- len ≤ i < len)%Z →
     let u' := change_subs_block ((i, new_text) :: others) u in
     let n := Z.to_nat (if (i <? 0)%Z then (i + len)%Z else i) in
     ∃ sub subs',
       subs !! n = Some sub ∧
       edit_text subs i new_text = Returns subs' ∧
       heap u' = <[l := subs']> (heap u) ∧
       session_state u' !! "transcribed_subs" = Some (VRef l) ∧
       length subs' = length subs ∧
       subs' !! n = Some {| start := start sub; end_ := end_ sub; text := new_text |} ∧
       (∀ m, m ≠ n → subs' !! m = subs !! m)) ∧
  (∀ i : Z, (i < - len ∨ len ≤ i)%Z →
     let u' := change_subs_block ((i, new_text) :: others) u in
     edit_text subs i new_text = Raises "list index out of range" ∧
     heap u' = heap u ∧
     session_state u' !! "transcribed_subs" = Some (VRef l) ∧
     notification_placeholder u' = Some (error "Error parsing subs!")).
Proof.
  intros Hactive Hobj len. split.
  - intros i Hin u' n.
    destruct (py_index_in_bounds (length subs) i Hin) as [Hidx Hlt].
    fold len in Hidx, Hlt. fold n in Hidx, Hlt.
    destruct (lookup_lt_is_Some_2 subs n Hlt) as [sub Hsub].
    assert (Hedit : edit_text subs i new_text
                    = Returns (alter (set_text new_text) n subs)).
    { unfold edit_text. by rewrite Hidx. }
    exists sub, (alter (set_text new_text) n subs).
    subst u'. rewrite (change_subs_block_returns _ _ _ _ _ _ _ Hactive Hobj Hedit).
    simpl. split; [done|]. split; [done|]. split; [done|].
    split; [by rewrite lookup_insert_eq|].
    split; [apply length_alter|].
    split; [by rewrite list_lookup_alter_eq, Hsub|].
    intros m Hm. by apply list_lookup_alter_ne.
  - intros i Hout u'.
    assert (Hedit : edit_text subs i new_text = Raises "list index out of range").
    { unfold edit_text. by rewrite (py_index_out_of_bounds _ _ Hout). }
    subst u'. rewrite (change_subs_block_raises _ _ _ _ _ _ _ Hactive Hobj Hedit).
    simpl. split; [done|]. split; [done|]. split; [|done].
    by rewrite lookup_insert_ne.
Qed.

(** Edits of the active document leave alone an object that is not the
    active one, and the two session entries. *)
Lemma change_subs_keeps_original (selected_rows : list (Z * string)) (u : session)
    (l l' : loc) (original : SSAFile) :
  l' ≠ l →
  session_state u !! "transcribed_subs" = Some (VRef l') →
  session_state u !! "original_subs" = Some (VRef l) →
  heap u !! l = Some original →
  let u' := change_subs_block selected_rows u in
  session_state u' !! "transcribed_subs" = Some (VRef l') ∧
  session_state u' !! "original_subs" = Some (VRef l) ∧
  heap u' !! l = Some original.
Proof.
  intros Hne Hactive Horig Hobj. simpl.
  destruct selected_rows as [|[i new_text] others]; [done|].
  unfold change_subs_block. rewrite lookup_insert_ne, Hactive by done.
  destruct (heap u !! l') as [subs|]; simpl.
  - destruct (edit_text subs i new_text) as [subs'|e]; simpl.
    + rewrite lookup_insert_eq, !lookup_insert_ne by done. done.
    + by rewrite !lookup_insert_ne.
  - by rewrite !lookup_insert_ne.
Qed.

Lemma change_subs_all_keeps_original (edits : list (list (Z * string))) (u : session)
    (l l' : loc) (original : SSAFile) :
  l' ≠ l →
  session_state u !! "transcribed_subs" = Some (VRef l') →
  session_state u !! "original_subs" = Some (VRef l) →
  heap u !! l = Some original →
  let u' := change_subs_all edits u in
  session_state u' !! "transcribed_subs" = Some (VRef l') ∧
  session_state u' !! "original_subs" = Some (VRef l) ∧
  heap u' !! l = Some original.
Proof.
  revert u. induction edits as [|selected_rows edits IH];
    intros u Hne Hactive Horig Hobj; [done|].
  destruct (change_subs_keeps_original selected_rows u l l' original)
    as (? & ? & ?); [done..|].
  simpl. by apply IH.
Qed.

(** The session as a run finds it: the path stored, an empty placeholder
    and an empty page. *)
Lemma webui_translate_run (i : inputs) (u : session) (transcribed_subs : val) :
  transcribe_button i = false →
  advanced_tool i = "google-translate" →
  submitted i = true →
  reload_transcribed_subs i = false →
  selected_rows i = [] →
  session_state u !! "transcribed_subs" = Some transcribed_subs →
  webui i u
  = (Returns (),
     translate_block transcribed_subs (target_language i)
       {| session_state := <["file_path" := VStr (file_path i)]> (session_state u);
          heap := heap u; proc := proc u;
          notification_placeholder := None; page := [] |}).
Proof.
  intros Htr Htool Hsub Hrel Hrows Hactive. unfold webui.
  by rewrite Htr, Htool, Hsub, Hrel, Hrows, Hactive.
Qed.

Lemma webui_reload_run (i : inputs) (u : session) :
  transcribe_button i = false →
  advanced_tool i = "google-translate" →
  submitted i = false →
  reload_transcribed_subs i = true →
  selected_rows i = [] →
  webui i u
  = (Returns (),
     reload_block
       {| session_state := <["file_path" := VStr (file_path i)]> (session_state u);
          heap := heap u; proc := proc u;
          notification_placeholder := None; page := [] |}).
Proof.
  intros Htr Htool Hsub Hrel Hrows. unfold webui.
  by rewrite Htr, Htool, Hsub, Hrel, Hrows.
Qed.

(** C7.  For a session whose active document is the object [l] holding
    [D], a translation that returns makes a new object the active document
    and keeps [l], still holding [D], as the one original; after any
    edits of the translated document, reloading the original makes [l],
    holding exactly [D], the active document again. *)
Theorem translation_keeps_original (u : session) (l : loc) (D translated : SSAFile)
    (target_language : string) (w : world) :
  session_state u !! "transcribed_subs" = Some (VRef l) →
  heap u !! l = Some D →
  google_translate D "auto" target_language (env (proc u)) = (Returns translated, w) →
  let u1 := translate_block (VRef l) target_language u in
  ∃ l',
    l' ≠ l ∧
    session_state u1 !! "transcribed_subs" = Some (VRef l') ∧
    heap u1 !! l' = Some translated ∧
    session_state u1 !! "original_subs" = Some (VRef l) ∧
    heap u1 !! l = Some D ∧
    ∀ edits,
      let u2 := reload_block (change_subs_all edits u1) in
      session_state u2 !! "transcribed_subs" = Some (VRef l) ∧
      session_state u2 !! "original_subs" = Some (VRef l) ∧
      heap u2 !! l = Some D.
Proof.
  intros Hactive Hobj Htr. simpl.
  assert (Hfresh : fresh (dom (heap u)) ≠ l).
  { intros Heq. apply (is_fresh (dom (heap u))). rewrite Heq.
    apply elem_of_dom. by eexists. }
  unfold translate_block. rewrite Hactive. simpl. rewrite Hobj, Htr.
  unfold alloc. simpl.
  exists (fresh (dom (heap u))).
  split; [done|]. split; [by rewrite lookup_insert_eq|].
  split; [by rewrite lookup_insert_eq|].
  split; [by rewrite lookup_insert_ne, lookup_insert_eq|].
  split; [by rewrite lookup_insert_ne|].
  intros edits.
  match goal with |- context [change_subs_all edits ?u1] => set (u1' := u1) end.
  destruct (change_subs_all_keeps_original edits u1' l (fresh (dom (heap u))) D)
    as (Ha & Ho & Hh); [done|..].
  - subst u1'. simpl. by rewrite lookup_insert_eq.
  - subst u1'. simpl. by rewrite lookup_insert_ne, lookup_insert_eq.
  - subst u1'. simpl. by rewrite lookup_insert_ne.
  - unfold reload_block. rewrite Ho. simpl.
    rewrite lookup_insert_eq, lookup_insert_ne, Ho by done. done.
Qed.
End SessionClaims.

(** ** Subtitle documents on the demo session *)

(** The document of two events: the index [-1] edits the second event and
    leaves the first one alone; the index [2] raises and leaves the
    document alone. *)
Lemma edit_text_frame_witness :
  (let u' := change_subs_block [((-1)%Z, "hello")] two_session in
   ∃ sub subs',
     two_subs !! 1%nat = Some sub ∧
     edit_text two_subs (-1) "hello" = Returns subs' ∧
     heap u' = <[0%nat := subs']> (heap two_session) ∧
     session_state u' !! "transcribed_subs" = Some (VRef 0%nat) ∧
     length subs' = length two_subs ∧
     subs' !! 1%nat
       = Some {| start := start sub; end_ := end_ sub; text := "hello" |} ∧
     (∀ m, m ≠ 1%nat → subs' !! m = two_subs !! m)) ∧
  (let u' := change_subs_block [(2%Z, "hello")] two_session in
   edit_text two_subs 2 "hello" = Raises "list index out of range" ∧
   heap u' = heap two_session ∧
   session_state u' !! "transcribed_subs" = Some (VRef 0%nat) ∧
   notification_placeholder u' = Some (error "Error parsing subs!")).
Proof.
  destruct (edit_text_frame two_session 0%nat two_subs "hello" [] eq_refl eq_refl)
    as [Hin Hout].
  split.
  - apply (Hin (-1)%Z). simpl. lia.
  - apply (Hout 2%Z). simpl. lia.
Defined.

(** C8, as stated, fails for an index below zero: [-1] is outside
    [0 ≤ i < len], yet the edit does not fail, and the document is
    modified. *)
Lemma edit_text_accepts_negative_index :
  ¬ (∀ (u : session) (l : loc) (subs : SSAFile) (i : Z) (new_text : string)
       (others : list (Z * string)),
       session_state u !! "transcribed_subs" = Some (VRef l) →
       heap u !! l = Some subs →
       (i < 0 ∨ Z.of_nat (length subs) ≤ i)%Z →
       (∃ e, edit_text subs i new_text = Raises e) ∧
       heap (change_subs_block ((i, new_text) :: others) u) !! l = Some subs).
Proof.
  intros Hclaim.
  destruct (Hclaim two_session 0%nat two_subs (-1)%Z "hello" [] eq_refl eq_refl)
    as [[e Hfails] _]; [lia|].
  discriminate Hfails.
Qed.

Example edit_text_negative_modifies :
  edit_text two_subs (-1) "hello"
  = Returns [ {| start := 0; end_ := 1000; text := "one" |};
              {| start := 1000; end_ := 2000; text := "hello" |} ] ∧
  heap (change_subs_block [((-1)%Z, "hello")] two_session) !! 0%nat
  = Some [ {| start := 0; end_ := 1000; text := "one" |};
           {| start := 1000; end_ := 2000; text := "hello" |} ].
Proof. split; reflexivity. Qed.

Example edit_text_below_range :
  edit_text two_subs (-3) "hello" = Raises "list index out of range" ∧
  heap (change_subs_block [((-3)%Z, "hello")] two_session) = heap two_session.
Proof. split; reflexivity. Qed.

Example edit_text_last :
  edit_text talk_subs (-1) "hello"
  = Returns [ {| start := 0; end_ := 1000; text := "hello" |} ].
Proof. reflexivity. Qed.

Example edit_text_past_end :
  edit_text talk_subs 1 "hello" = Raises "list index out of range" ∧
  heap (change_subs_block [(1%Z, "hello")] talk_session) = heap talk_session.
Proof. split; reflexivity. Qed.

(** Translating the talk into Japanese, then reloading the original. *)
Lemma translation_keeps_original_witness :
  let u1 := translate_block (VRef 0%nat) "ja" talk_session in
  ∃ l',
    l' ≠ 0%nat ∧
    session_state u1 !! "transcribed_subs" = Some (VRef l') ∧
    heap u1 !! l' = Some [ {| start := 0; end_ := 1000; text := "ja:talk.mp4" |} ] ∧
    session_state u1 !! "original_subs" = Some (VRef 0%nat) ∧
    heap u1 !! 0%nat = Some talk_subs ∧
    ∀ edits,
      let u2 := reload_block (change_subs_all edits u1) in
      session_state u2 !! "transcribed_subs" = Some (VRef 0%nat) ∧
      session_state u2 !! "original_subs" = Some (VRef 0%nat) ∧
      heap u2 !! 0%nat = Some talk_subs.
Proof.
  apply (translation_keeps_original talk_session 0%nat talk_subs
           [ {| start := 0; end_ := 1000; text := "ja:talk.mp4" |} ] "ja" 2%nat).
  - reflexivity.
  - reflexivity.
  - reflexivity.
Defined.

(** The same through two whole runs of the script. *)
Example webui_translate_then_reload :
  let u1 := (webui press_translate talk_session).2 in
  let u2 := (webui press_reload u1).2 in
  session_state u1 !! "transcribed_subs" = Some (VRef 1%nat) ∧
  heap u1 !! 1%nat = Some [ {| start := 0; end_ := 1000; text := "ja:talk.mp4" |} ] ∧
  session_state u2 !! "transcribed_subs" = Some (VRef 0%nat) ∧
  heap u2 !! 0%nat = Some talk_subs.
Proof. cbv zeta. repeat split; reflexivity. Qed.

(** The backup has one level: after a second translation the reload gives
    back the first translation, not the transcription. *)
Example second_translation_replaces_backup :
  let u1 := translate_block (VRef 0%nat) "ja" talk_session in
  let u2 := translate_block (VRef 1%nat) "en" u1 in
  let u3 := reload_block u2 in
  session_state u1 !! "transcribed_subs" = Some (VRef 1%nat) ∧
  session_state u3 !! "transcribed_subs" = Some (VRef 1%nat) ∧
  heap u3 !! 1%nat = Some [ {| start := 0; end_ := 1000; text := "ja:talk.mp4" |} ].
Proof. cbv zeta. repeat split; reflexivity. Qed.

(** The caller hands the result of a failed coercion on: with ['abc'] for
    [beam_size] the error is shown and [_transcribe] runs with [None] for
    the config. *)
Example transcribe_block_after_failed_coercion :
  let u' := (transcribe_block "talk.mp4" bad_beam_session).2 in
  notification_placeholder u'
  = Some (error ("Problem parsing configs!! " +:+ newline +:+ " " +:+ invalid_abc)) ∧
  transcriptions (proc u') = [ (("talk.mp4", "openai/whisper", None), true) ] ∧
  session_state u' !! "transcribed_subs" = Some (VRef 0%nat).
Proof. cbv zeta. repeat split; reflexivity. Qed.

(** * Further properties of the script *)

(** ** The coercer: what it binds, what it reads, when it fails *)

Section CoercerMore.
Context `{PyBuiltins}.

(** The names bound when the loop returns: those already bound, and the
    declared ones that have a raw value. *)
Lemma config_loop_dom model_name config_schema session_state acc model_config name :
  config_loop model_name config_schema session_state acc = Returns model_config →
  is_Some (model_config !! name) ↔
  is_Some (acc !! name) ∨
  (name ∈ config_schema.*1 ∧ is_Some (session_state !! _get_key model_name name)).
Proof.
  revert acc. induction config_schema as [|[config_name config] rest IH];
    intros acc Hloop; simpl in Hloop.
  - simplify_eq. rewrite fmap_nil. split; [auto|].
    intros [?|[Hin _]]; [done|]. by apply elem_of_nil in Hin.
  - rewrite fmap_cons. simpl.
    destruct (session_state !! _get_key model_name config_name) as [v|] eqn:Hv.
    + destruct (coerce (type config) v) as [v'|e]; [|done].
      rewrite (IH _ Hloop), lookup_insert_is_Some, elem_of_cons.
      split.
      * intros [[->|[_ ?]]|[? ?]]; [right; split; [by left|by rewrite Hv]|by left|].
        right. split; [by right|done].
      * intros [Hacc|[[->|Hin] Hraw]].
        -- destruct (decide (config_name = name)) as [->|Hne]; left; [by left|].
           by right.
        -- left. by left.
        -- by right.
    + rewrite (IH _ Hloop), elem_of_cons. split.
      * intros [?|[? ?]]; [by left|]. right. split; [by right|done].
      * intros [?|[[->|Hin] Hraw]]; [by left| |by right].
        rewrite Hv in Hraw. by destruct Hraw.
Qed.

(** X2.  The returned config binds exactly the declared parameters that
    have a raw value in the session: no other name, and no declared
    parameter without one. *)
Theorem coercion_domain model_name config_schema session_state placeholder
    model_config placeholder' name :
  _get_config_from_session_state model_name config_schema session_state placeholder
    = (Some model_config, placeholder') →
  is_Some (model_config !! name) ↔
  name ∈ config_schema.*1 ∧ is_Some (session_state !! _get_key model_name name).
Proof.
  intros [Hloop _]%get_config_returns.
  rewrite (config_loop_dom _ _ _ _ _ name Hloop), lookup_empty.
  split; [intros [[? ?]|?]; done|by right].
Qed.

Lemma config_loop_reads_only_its_keys model_name config_schema ss1 ss2 acc :
  (∀ name, name ∈ config_schema.*1 →
           ss1 !! _get_key model_name name = ss2 !! _get_key model_name name) →
  config_loop model_name config_schema ss1 acc
  = config_loop model_name config_schema ss2 acc.
Proof.
  revert acc. induction config_schema as [|[config_name config] rest IH];
    intros acc Hsame; [done|].
  simpl. rewrite <- (Hsame config_name) by (rewrite fmap_cons; by left).
  assert (Hrest : ∀ name, name ∈ rest.*1 →
            ss1 !! _get_key model_name name = ss2 !! _get_key model_name name).
  { intros name Hin. apply Hsame. rewrite fmap_cons. by right. }
  destruct (ss1 !! _get_key model_name config_name) as [v|]; [|by apply IH].
  destruct (coerce (type config) v); [by apply IH|done].
Qed.

(** X3.  The call reads the session only under the keys of the declared
    parameters: two sessions that agree there give the same config, or
    the same error. *)
Theorem coercion_reads_only_its_keys model_name config_schema ss1 ss2 placeholder :
  (∀ name, name ∈ config_schema.*1 →
           ss1 !! _get_key model_name name = ss2 !! _get_key model_name name) →
  _get_config_from_session_state model_name config_schema ss1 placeholder
  = _get_config_from_session_state model_name config_schema ss2 placeholder.
Proof.
  intros Hsame. unfold _get_config_from_session_state.
  by rewrite (config_loop_reads_only_its_keys _ _ ss1 ss2 ∅ Hsame).
Qed.

(** X4.  The call returns no config only because [int] or [float] raised
    on the raw value of an integer or real parameter; the placeholder then
    shows that exception.  Text, choice and boolean parameters never make
    it fail. *)
Theorem coercion_fails_only_on_numbers model_name config_schema session_state
    placeholder :
  (_get_config_from_session_state model_name config_schema session_state
     placeholder).1 = None →
  ∃ name config v e,
    (name, config) ∈ config_schema ∧
    session_state !! _get_key model_name name = Some v ∧
    is_none_or_empty v = false ∧
    ((type config = TInt ∧ py_int v = Raises e) ∨
     (type config = TFloat ∧ py_float v = Raises e)) ∧
    (_get_config_from_session_state model_name config_schema session_state
       placeholder).2
    = Some (error ("Problem parsing configs!! " +:+ newline +:+ " " +:+ e)).
Proof.
  unfold _get_config_from_session_state.
  generalize (∅ : gmap string val). intros acc.
  revert acc. induction config_schema as [|[config_name config] rest IH];
    intros acc; simpl; [done|].
  destruct (session_state !! _get_key model_name config_name) as [v|] eqn:Hv.
  - destruct (coerce (type config) v) as [v'|e] eqn:Hc.
    + intros Hnone. destruct (IH _ Hnone) as (name & c & w & e & Hin & ?).
      exists name, c, w, e. split; [by right|done].
    + intros _. destruct (coerce_raises _ _ _ Hc) as [Hne Hwhy].
      exists config_name, config, v, e. split; [by left|done].
  - intros Hnone. destruct (IH _ Hnone) as (name & c & w & e & Hin & ?).
    exists name, c, w, e. split; [by right|done].
Qed.

(** X5.  In a returned config an integer parameter is bound to null or to
    an integer, and a real parameter to null or to a real, whatever the
    raw value was. *)
Theorem coerced_numbers_are_numbers model_name config_schema session_state
    placeholder model_config placeholder' name config v' :
  NoDup config_schema.*1 →
  (name, config) ∈ config_schema →
  _get_config_from_session_state model_name config_schema session_state placeholder
    = (Some model_config, placeholder') →
  model_config !! name = Some v' →
  (type config = TInt → v' = VNone ∨ ∃ n, v' = VInt n) ∧
  (type config = TFloat → v' = VNone ∨ ∃ f, v' = VFloat f).
Proof.
  intros Hnd Hin [Hloop _]%get_config_returns Hbound.
  destruct (session_state !! _get_key model_name name) as [v|] eqn:Hv.
  - destruct (config_loop_present _ _ _ _ _ _ _ _ Hnd Hloop Hin Hv) as (w & Hc & Hw).
    assert (w = v') by congruence. subst w.
    split; intros Hty; rewrite Hty in Hc; simpl in Hc;
      destruct (is_none_or_empty v); simplify_eq; try by left.
    + destruct (py_int v) as [n|]; simplify_eq. right. by exists n.
    + destruct (py_float v) as [f|]; simplify_eq. right. by exists f.
  - by rewrite (config_loop_absent _ _ _ _ _ _ Hloop Hv), lookup_empty in Hbound.
Qed.

(** X6.  When the session holds no value under any key of the schema, the
    call returns the empty config and leaves the placeholder alone,
    whatever the types and defaults of the parameters. *)
Theorem coercion_without_raw_values model_name config_schema session_state placeholder :
  (∀ name, name ∈ config_schema.*1 →
           session_state !! _get_key model_name name = None) →
  _get_config_from_session_state model_name config_schema session_state placeholder
  = (Some ∅, placeholder).
Proof.
  intros Hnone. unfold _get_config_from_session_state.
  assert (Hloop : ∀ acc, config_loop model_name config_schema session_state acc
                         = Returns acc).
  { induction config_schema as [|[config_name config] rest IH]; intros acc; [done|].
    simpl. rewrite (Hnone config_name) by (rewrite fmap_cons; by left).
    apply IH. intros name Hin. apply Hnone. rewrite fmap_cons. by right. }
  by rewrite Hloop.
Qed.
End CoercerMore.

(** ** Keys of the config widgets *)

(** Two texts with a common extension: one is a prefix of the other. *)
Lemma string_app_comparable (a b x y : string) :
  a +:+ x = b +:+ y → String.prefix a b = true ∨ String.prefix b a = true.
Proof.
  revert b. induction a as [|c a IH]; intros b Heq; [left; by destruct b|].
  destruct b as [|d b]; [right; reflexivity|].
  simpl in Heq. injection Heq as -> Heq. simpl.
  destruct (IH b Heq) as [Hp|Hp]; [left|right];
    by destruct (Ascii.ascii_dec d d).
Qed.

Lemma string_app_assoc (a b c : string) : a +:+ (b +:+ c) = (a +:+ b) +:+ c.
Proof.
  induction a as [|x a IH]; [reflexivity|].
  change (String x (a +:+ (b +:+ c)) = String x ((a +:+ b) +:+ c)). by f_equal.
Qed.

(** No owner's name followed by the hyphen is a prefix of another's. *)
Lemma config_owners_incomparable `{PyBuiltins} (m1 m2 : string) :
  m1 ∈ config_owners → m2 ∈ config_owners →
  String.prefix (m1 +:+ "-") (m2 +:+ "-") = true → m1 = m2.
Proof.
  intros H1 H2 Hp.
  assert (Hall : forallb (λ a, forallb (λ b,
            implb (String.prefix (a +:+ "-") (b +:+ "-")) (String.eqb a b))
            config_owners) config_owners = true) by reflexivity.
  apply list_elem_of_In in H1, H2.
  rewrite forallb_forall in Hall. specialize (Hall m1 H1).
  rewrite forallb_forall in Hall. specialize (Hall m2 H2).
  rewrite Hp in Hall. simpl in Hall. by apply String.eqb_eq.
Qed.

(** X1.  Among the models of [AVAILABLE_MODELS] and the tools of
    [BASIC_TOOLS_CONFIGS] the key tells the owner and the parameter: two
    of them never share a key, whatever their parameters are called. *)
Theorem registry_keys_tell_owner `{PyBuiltins} (m1 m2 c1 c2 : string) :
  m1 ∈ config_owners → m2 ∈ config_owners →
  _get_key m1 c1 = _get_key m2 c2 →
  m1 = m2 ∧ c1 = c2.
Proof.
  intros H1 H2 Heq.
  assert (m1 = m2) as ->.
  { unfold _get_key in Heq. rewrite !string_app_assoc in Heq.
    destruct (string_app_comparable _ _ _ _ Heq) as [Hp|Hp].
    - by apply config_owners_incomparable.
    - symmetry. by apply config_owners_incomparable. }
  split; [done|]. by apply (_get_key_inj m2).
Qed.

Section ConfigUIFacts.
Context `{PyObjects}.

(** What [_config_ui] leaves when it returns: a widget under the given
    key and nothing printed, or, for a class without a branch, no widget
    and the warning. *)
Lemma _config_ui_returns config_name key config stdout made stdout' :
  _config_ui config_name key config stdout = (Returns made, stdout') →
  match made with
  | Some w => widget_key w = key ∧ type config ≠ TOther ∧ stdout' = stdout
  | None =>
      type config = TOther ∧
      stdout' = (stdout ++ [unsupported_warning config_name])%list
  end.
Proof.
  unfold _config_ui. destruct (type config) eqn:Hty.
  - by intros [= <- <-].
  - destruct (options config) as [choices|]; [|done].
    destruct (py_list_index _ _); [|done]. by intros [= <- <-].
  - destruct (default config); by intros [= <- <-].
  - destruct (default config); by intros [= <- <-].
  - by intros [= <- <-].
  - by intros [= <- <-].
Qed.

(** Only a choice makes [_config_ui] raise, and nothing is printed. *)
Lemma _config_ui_raises config_name key config stdout msg stdout' :
  _config_ui config_name key config stdout = (Raises msg, stdout') →
  type config = TList ∧ stdout' = stdout.
Proof.
  unfold _config_ui. destruct (type config); try done.
  - destruct (options config) as [choices|]; [|by intros [= <- <-]].
    destruct (py_list_index _ _); [done|]. by intros [= <- <-].
  - by destruct (default config).
  - by destruct (default config).
Qed.

Lemma py_list_index_spec (x : val) (l : list val) :
  match py_list_index x l with
  | Some index =>
      (∃ item, l !! index = Some item ∧ py_eq item x = true) ∧
      (∀ j item, (j < index)%nat → l !! j = Some item → py_eq item x = false)
  | None => ∀ item, item ∈ l → py_eq item x = false
  end.
Proof.
  induction l as [|item l IH]; simpl.
  - intros item Hin. by apply elem_of_nil in Hin.
  - destruct (py_eq item x) eqn:Heq.
    + split; [by exists item|]. intros j ? Hj. lia.
    + destruct (py_list_index x l) as [index|]; simpl.
      * destruct IH as [[found [Hfound Hx]] Hbefore]. split; [by exists found|].
        intros [|j] other Hj Hother; simpl in Hother; [by simplify_eq|].
        apply (Hbefore j); [lia|done].
      * intros other [->|Hin]%elem_of_cons; [done|by apply IH].
Qed.

(** X8.  For a choice parameter [_config_ui] makes its select box exactly
    when some option equals the default, and preselects the first such
    option; when none does, or when the options are missing, it raises.
    Nothing is printed either way. *)
Theorem selectbox_preselects_default config_name key config stdout :
  type config = TList →
  match _config_ui config_name key config stdout with
  | (Returns made, stdout') =>
      stdout' = stdout ∧
      ∃ choices index item,
        options config = Some choices ∧
        made = Some (selectbox config_name choices index (description config) key) ∧
        choices !! index = Some item ∧
        py_eq item (default config) = true ∧
        ∀ j other, (j < index)%nat → choices !! j = Some other →
                   py_eq other (default config) = false
  | (Raises _, stdout') =>
      stdout' = stdout ∧
      (options config = None ∨
       ∃ choices, options config = Some choices ∧
                  ∀ item, item ∈ choices → py_eq item (default config) = false)
  end.
Proof.
  intros Hty. unfold _config_ui. rewrite Hty.
  destruct (options config) as [choices|]; [|split; [done|by left]].
  pose proof (py_list_index_spec (default config) choices) as Hspec.
  destruct (py_list_index (default config) choices) as [index|].
  - destruct Hspec as [[item [Hitem Heq]] Hbefore]. split; [done|].
    by exists choices, index, item.
  - split; [done|]. right. by exists choices.
Qed.

(** What the loop has done when it stops: the entries it went through,
    the widgets of those whose class has one, the warnings of the
    others, and the choice at which it raised, if it did. *)
Lemma _generate_config_ui_spec model_name config_schema stdout ws stdout' e :
  _generate_config_ui model_name config_schema stdout = (ws, stdout', e) →
  ∃ visited rest,
    config_schema = (visited ++ rest)%list ∧
    widget_key <$> ws
    = _get_key model_name
        <$> (filter (λ entry, type entry.2 ≠ TOther) visited).*1 ∧
    stdout'
    = (stdout ++ (unsupported_warning
                    <$> (filter (λ entry, type entry.2 = TOther) visited).*1))%list ∧
    match e with
    | None => rest = []
    | Some msg =>
        ∃ name config rest',
          rest = (name, config) :: rest' ∧
          type config = TList ∧
          _config_ui name (_get_key model_name name) config stdout'
          = (Raises msg, stdout')
    end.
Proof.
  revert stdout ws stdout' e.
  induction config_schema as [|[config_name config] schema IH];
    intros stdout ws stdout' e; simpl.
  - intros [= <- <- <-]. exists [], []. simpl. by rewrite app_nil_r.
  - destruct (_config_ui config_name _ config stdout) as [[made|msg] stdout1] eqn:Hui.
    + destruct (_generate_config_ui model_name schema stdout1)
        as [[ws1 stdout2] e1] eqn:Hrest.
      intros [= <- <- <-].
      destruct (IH _ _ _ _ Hrest) as (visited & rest & -> & Hkeys & Hout & Hend).
      apply _config_ui_returns in Hui.
      exists ((config_name, config) :: visited), rest. split; [done|].
      destruct made as [w|].
      * destruct Hui as (Hkey & Hty & ->).
        rewrite filter_cons_True by done.
        rewrite (filter_cons_False (λ entry, type entry.2 = TOther)) by done.
        rewrite !fmap_cons, Hkey, Hkeys. done.
      * destruct Hui as (Hty & ->).
        rewrite (filter_cons_False (λ entry, type entry.2 ≠ TOther))
          by (intros Hn; by apply Hn).
        rewrite filter_cons_True by done.
        split; [done|]. split; [|done].
        rewrite Hout, fmap_cons, fmap_cons, <- app_assoc. reflexivity.
    + intros [= <- <- <-].
      destruct (_config_ui_raises _ _ _ _ _ _ Hui) as [Hty ->].
      exists [], ((config_name, config) :: schema).
      split; [done|]. split; [done|]. split; [by rewrite app_nil_r|].
      by exists config_name, config, schema.
Qed.

(** X7.  [_generate_config_ui] goes through the parameters in schema
    order: for each one whose class has a widget it makes that widget
    under the key of the parameter, for each other one it makes no widget
    and prints the warning; it stops early only at a choice parameter for
    which [_config_ui] raises; and when the names of the schema are
    distinct, so are the keys of the widgets made. *)
Theorem generate_config_ui_keys model_name config_schema stdout ws stdout' e :
  NoDup config_schema.*1 →
  _generate_config_ui model_name config_schema stdout = (ws, stdout', e) →
  ∃ visited rest,
    config_schema = (visited ++ rest)%list ∧
    widget_key <$> ws
    = _get_key model_name
        <$> (filter (λ entry, type entry.2 ≠ TOther) visited).*1 ∧
    stdout'
    = (stdout ++ (unsupported_warning
                    <$> (filter (λ entry, type entry.2 = TOther) visited).*1))%list ∧
    NoDup (widget_key <$> ws) ∧
    match e with
    | None => rest = []
    | Some msg =>
        ∃ name config rest',
          rest = (name, config) :: rest' ∧
          type config = TList ∧
          _config_ui name (_get_key model_name name) config stdout'
          = (Raises msg, stdout')
    end.
Proof.
  intros Hnd Hgen.
  destruct (_generate_config_ui_spec _ _ _ _ _ _ Hgen)
    as (visited & rest & -> & Hkeys & Hout & Hend).
  exists visited, rest. split; [done|]. split; [done|]. split; [done|].
  split; [|done].
  rewrite Hkeys. pose proof (_get_key_inj model_name) as Hinj.
  apply (NoDup_fmap_2 (_get_key model_name)).
  rewrite fmap_app in Hnd. apply NoDup_app in Hnd as (Hvisited & _ & _).
  apply (sublist_NoDup _ _ Hvisited), fmap_sublist, sublist_filter.
Qed.
End ConfigUIFacts.

Section ConfigUIToCoercer.
Context `{PyObjects}.

(** X9.  When [_generate_config_ui] has gone through the whole schema and
    the session holds a value under the key of each widget made, a config
    returned by [_get_config_from_session_state] for the same model and
    schema binds every declared parameter whose class has a widget, and
    no name outside the schema. *)
Theorem generated_widgets_bind_every_parameter model_name config_schema stdout ws
    stdout' session_state placeholder model_config placeholder' :
  _generate_config_ui model_name config_schema stdout = (ws, stdout', None) →
  (∀ w, w ∈ ws → is_Some (session_state !! widget_key w)) →
  _get_config_from_session_state model_name config_schema session_state placeholder
    = (Some model_config, placeholder') →
  (∀ name config, (name, config) ∈ config_schema → type config ≠ TOther →
                  is_Some (model_config !! name)) ∧
  (∀ name, is_Some (model_config !! name) → name ∈ config_schema.*1).
Proof.
  intros Hgen Hheld [Hloop _]%get_config_returns.
  destruct (_generate_config_ui_spec _ _ _ _ _ _ Hgen)
    as (visited & rest & -> & Hkeys & _ & ->).
  rewrite app_nil_r in Hloop |- *. split.
  - intros name config Hin Hty.
    rewrite (config_loop_dom _ _ _ _ _ name Hloop). right. split.
    + apply list_elem_of_fmap. by exists (name, config).
    + assert (Hkey : _get_key model_name name ∈ widget_key <$> ws).
      { rewrite Hkeys. apply list_elem_of_fmap_2.
        apply list_elem_of_fmap. exists (name, config). split; [done|].
        by apply list_elem_of_filter. }
      apply list_elem_of_fmap_1 in Hkey as (w & -> & Hw). by apply Hheld.
  - intros name.
    rewrite (config_loop_dom _ _ _ _ _ name Hloop), lookup_empty.
    intros [[? ?]|[? _]]; done.
Qed.
End ConfigUIToCoercer.

(** ** Edits of a document and the table shown for it *)

Lemma set_text_set_text (t1 t2 : string) (sub : SSAEvent) :
  set_text t2 (set_text t1 sub) = set_text t2 sub.
Proof. reflexivity. Qed.

Lemma edit_text_returns (subs subs' : SSAFile) (i : Z) (t : string) :
  edit_text subs i t = Returns subs' →
  ∃ n, py_index (length subs) i = Some n ∧ (n < length subs)%nat ∧
       subs' = alter (set_text t) n subs.
Proof.
  unfold edit_text. destruct (py_index (length subs) i) as [n|] eqn:Hidx; [|done].
  intros [= <-]. exists n. split; [done|]. split; [|done].
  unfold py_index in Hidx.
  destruct (i <? 0)%Z;
    destruct (_ && _) eqn:Hb; simplify_eq;
    apply andb_true_iff in Hb as [Hge%Z.leb_le Hlt%Z.ltb_lt]; lia.
Qed.

(** X10.  Edits compose as assignments do: a second edit of the same
    entry overwrites the first, and edits of two different entries give
    the same document in either order. *)
Theorem edit_text_composes (subs s1 s2 : SSAFile) (i j : Z) (t1 t2 : string) :
  edit_text subs i t1 = Returns s1 →
  edit_text subs j t2 = Returns s2 →
  (py_index (length subs) i = py_index (length subs) j →
   edit_text s1 j t2 = Returns s2) ∧
  (py_index (length subs) i ≠ py_index (length subs) j →
   edit_text s1 j t2 = edit_text s2 i t1 ∧ ∃ s, edit_text s1 j t2 = Returns s).
Proof.
  intros (n & Hi & Hn & ->)%edit_text_returns (m & Hj & Hm & ->)%edit_text_returns.
  unfold edit_text. rewrite !length_alter, Hi, Hj. split.
  - intros [= ->]. f_equal. rewrite list_alter_alter_eq.
    by apply list_alter_ext.
  - intros Hne. assert (n ≠ m) by congruence.
    rewrite (list_alter_alter_ne _ _ subs m n) by done. split; [done|by eexists].
Qed.

(** X11.  A negative index is another name for an entry: for an index
    [i] within the document, [i - len] edits the same entry with the same
    result. *)
Theorem edit_text_negative_index (subs : SSAFile) (i : Z) (t : string) :
  (0 ≤ i < Z.of_nat (length subs))%Z →
  edit_text subs (i - Z.of_nat (length subs)) t = edit_text subs i t ∧
  ∃ subs', edit_text subs i t = Returns subs'.
Proof.
  intros Hi. unfold edit_text.
  destruct (py_index_in_bounds (length subs) i ltac:(lia)) as [-> _].
  destruct (py_index_in_bounds (length subs) (i - Z.of_nat (length subs))
              ltac:(lia)) as [-> _].
  rewrite (proj2 (Z.ltb_lt (i - Z.of_nat (length subs)) 0)) by lia.
  rewrite (proj2 (Z.ltb_ge i 0)) by lia.
  replace (i - Z.of_nat (length subs) + Z.of_nat (length subs))%Z with i by lia.
  split; [done|by eexists].
Qed.


(** ** Documents across runs of the script *)

Section SessionMore.
Context `{Engines}.

(** X13.  Reloading makes the backup and the active entry one object, so
    an edit made after a reload is made in the backup itself: the backup
    then holds the edited document, and reloading again gives the edited
    document, not the one that was backed up. *)
Theorem edit_after_reload_reaches_backup (u : session) (l : loc) (D D' : SSAFile)
    (i : Z) (t : string) (others : list (Z * string)) :
  session_state u !! "original_subs" = Some (VRef l) →
  heap u !! l = Some D →
  edit_text D i t = Returns D' →
  let u1 := change_subs_block ((i, t) :: others) (reload_block u) in
  let u2 := reload_block u1 in
  session_state u1 !! "original_subs" = Some (VRef l) ∧
  heap u1 !! l = Some D' ∧
  session_state u2 !! "transcribed_subs" = Some (VRef l) ∧
  heap u2 !! l = Some D'.
Proof.
  intros Horig Hobj Hedit u1 u2.
  assert (Hreload : reload_block u
            = {| session_state := <["transcribed_subs" := VRef l]> (session_state u);
                 heap := heap u; proc := proc u;
                 notification_placeholder := notification_placeholder u;
                 page := page u |}).
  { unfold reload_block. by rewrite Horig. }
  assert (Hu1 : session_state u1 !! "original_subs" = Some (VRef l) ∧
                heap u1 !! l = Some D').
  { subst u1. rewrite Hreload.
    erewrite change_subs_block_returns; [|by apply lookup_insert_eq|done..].
    simpl. split; [by rewrite !lookup_insert_ne|by rewrite lookup_insert_eq]. }
  destruct Hu1 as [Horig1 Hobj1]. split; [done|]. split; [done|].
  subst u2. unfold reload_block. rewrite Horig1. simpl.
  by rewrite lookup_insert_eq.
Qed.

(** What the Transcribe block leaves when [_transcribe] returns. *)
Lemma transcribe_block_returns (file_path : string) (u u' : session) (v : val) :
  transcribe_block file_path u = (Returns v, u') →
  ∃ document,
    v = VRef (fresh (dom (heap u))) ∧
    session_state u' = <["transcribed_subs" := v]> (session_state u) ∧
    heap u' = <[fresh (dom (heap u)) := document]> (heap u).
Proof.
  unfold transcribe_block.
  destruct (_get_config_from_session_state _ _ _ _) as [model_config placeholder].
  destruct (_transcribe _ _ _ _) as [[document|e] p]; [|done].
  unfold alloc. intros [= <- <-]. by exists document.
Qed.

Lemma fresh_object_is_new (h : gmap loc SSAFile) (l : loc) (doc : SSAFile) :
  h !! l = Some doc → fresh (dom h) ≠ l.
Proof.
  intros Hobj Heq. apply (is_fresh (dom h)). rewrite Heq.
  apply elem_of_dom. by eexists.
Qed.

(** X14.  A new transcription does not clear the backup: if the session
    has a backup when Transcribe is pressed, the new document becomes the
    active one, and pressing reload afterwards puts the old backup in its
    place. *)
Theorem reload_after_new_transcription (file_path : string) (u u' : session)
    (v : val) (l : loc) (D : SSAFile) :
  session_state u !! "original_subs" = Some (VRef l) →
  heap u !! l = Some D →
  transcribe_block file_path u = (Returns v, u') →
  v ≠ VRef l ∧
  session_state u' !! "transcribed_subs" = Some v ∧
  session_state (reload_block u') !! "transcribed_subs" = Some (VRef l) ∧
  heap (reload_block u') !! l = Some D.
Proof.
  intros Horig Hobj (document & -> & Hss & Hheap)%transcribe_block_returns.
  pose proof (fresh_object_is_new _ _ _ Hobj) as Hnew.
  split; [congruence|]. split; [by rewrite Hss, lookup_insert_eq|].
  unfold reload_block. rewrite Hss, lookup_insert_ne, Horig by done. simpl.
  rewrite lookup_insert_eq, Hheap, lookup_insert_ne by done. done.
Qed.

Lemma translate_block_keeps_objects (subs : val) (target_language : string)
    (u : session) (l : loc) (doc : SSAFile) :
  heap u !! l = Some doc →
  heap (translate_block subs target_language u) !! l = Some doc.
Proof.
  intros Hobj. unfold translate_block.
  destruct (session_state u !! "transcribed_subs"); [|done].
  destruct (deref subs (heap u)) as [document|]; [|done].
  destruct (google_translate _ _ _ _) as [[translated|e] w]; [|done].
  unfold alloc. simpl. rewrite lookup_insert_ne; [done|].
  by eapply fresh_object_is_new.
Qed.

Lemma reload_block_keeps_heap (u : session) : heap (reload_block u) = heap u.
Proof. unfold reload_block. by destruct (session_state u !! "original_subs"). Qed.

(** X15.  A run of the script in which no grid row is selected never
    changes a document that exists: whatever buttons were pressed, and
    whether the run ends or is cut short by an exception, every object of
    the store is afterwards what it was. *)
Theorem webui_keeps_documents (i : inputs) (u u' : session) (r : raises ())
    (l : loc) (doc : SSAFile) :
  selected_rows i = [] →
  webui i u = (r, u') →
  heap u !! l = Some doc →
  heap u' !! l = Some doc.
Proof.
  intros Hrows Hrun Hobj. unfold webui in Hrun. rewrite Hrows in Hrun.
  set (u0 := {| session_state := <["file_path" := VStr (file_path i)]> (session_state u);
                heap := heap u; proc := proc u;
                notification_placeholder := None; page := [] |}) in Hrun.
  assert (Htools : ∀ subs (u1 : session), heap u1 !! l = Some doc →
    heap (change_subs_block []
            (if decide (advanced_tool i = "google-translate")
             then (if reload_transcribed_subs i
                   then reload_block
                          (if submitted i
                           then translate_block subs (target_language i) u1 else u1)
                   else (if submitted i
                         then translate_block subs (target_language i) u1 else u1))
             else u1)) !! l = Some doc).
  { intros subs u1 Hobj1. simpl.
    destruct (decide _); [|done].
    destruct (reload_transcribed_subs i); [rewrite reload_block_keeps_heap|];
      (destruct (submitted i); [by apply translate_block_keeps_objects|done]). }
  destruct (transcribe_button i).
  - unfold transcribe_block in Hrun.
    destruct (_get_config_from_session_state _ _ _ _) as [model_config placeholder].
    destruct (_transcribe _ _ _ _) as [[document|e] p].
    + unfold alloc in Hrun. simpl in Hrun. injection Hrun as <- <-.
      apply Htools. simpl. rewrite lookup_insert_ne; [done|].
      by eapply fresh_object_is_new.
    + by injection Hrun as <- <-.
  - injection Hrun as <- <-. by apply Htools.
Qed.

End SessionMore.

(** ** The Youtube file mode *)

Section YoutubeFacts.
Context `{Engines}.
Variable download_youtube_video : string → world → raises string * world.

(** X17.  A video is downloaded at most once in a session: when the block
    returns a path for a non-empty address, the session holds that path
    under the address and under ['file_path'], and every later run for
    the address, in any session that still holds the entry, returns the
    same path without calling the downloader. *)
Theorem youtube_downloads_once (yt_url : string) (session_state ss1 : gmap string val)
    (w w1 : world) (v : val) :
  yt_url ≠ EmptyString →
  youtube_file_path download_youtube_video yt_url session_state w
    = (Returns v, ss1, w1) →
  ss1 !! yt_url = Some v ∧
  ss1 !! "file_path" = Some v ∧
  ∀ (ss2 : gmap string val) (w2 : world),
    ss2 !! yt_url = Some v →
    youtube_file_path download_youtube_video yt_url ss2 w2
    = (Returns v, <["file_path" := v]> ss2, w2).
Proof.
  intros Hurl Hrun.
  assert (Hlater : ∀ (ss2 : gmap string val) (w2 : world),
            ss2 !! yt_url = Some v →
            youtube_file_path download_youtube_video yt_url ss2 w2
            = (Returns v, <["file_path" := v]> ss2, w2)).
  { intros ss2 w2 Hheld. unfold youtube_file_path.
    rewrite bool_decide_eq_false_2 by congruence.
    by rewrite andb_false_r, Hheld. }
  unfold youtube_file_path in Hrun.
  assert (Hlen : (String.length yt_url =? 0)%nat = false).
  { destruct yt_url; [done|reflexivity]. }
  rewrite Hlen in Hrun. simpl in Hrun.
  destruct (session_state !! yt_url) as [stored|] eqn:Hheld.
  - rewrite bool_decide_eq_false_2 in Hrun by done.
    injection Hrun as <- <- <-. split; [|split; [by rewrite lookup_insert_eq|done]].
    destruct (decide ("file_path" = yt_url)) as [<-|Hne].
    + by rewrite lookup_insert_eq.
    + by rewrite lookup_insert_ne.
  - rewrite bool_decide_eq_true_2 in Hrun by done.
    destruct (download_youtube_video yt_url w) as [[path|e] w']; [|done].
    injection Hrun as <- <- <-. split; [|split; [by rewrite lookup_insert_eq|done]].
    destruct (decide ("file_path" = yt_url)) as [<-|Hne].
    + by rewrite lookup_insert_eq.
    + by rewrite lookup_insert_ne, lookup_insert_eq.
Qed.

(** X18.  An address that is already a key of the session is never
    downloaded, whatever put the entry there: the block takes the stored
    value as the path, even when it is not a path, and leaves the world
    alone; the empty address is not downloaded either. *)
Theorem youtube_skips_held_addresses (yt_url : string)
    (session_state ss1 : gmap string val) (w w1 : world) (r : raises val) :
  yt_url = EmptyString ∨ is_Some (session_state !! yt_url) →
  youtube_file_path download_youtube_video yt_url session_state w = (r, ss1, w1) →
  w1 = w ∧
  r = Returns (match session_state !! yt_url with
               | Some stored => stored
               | None => VStr EmptyString
               end) ∧
  ∀ k, k ≠ "file_path" → ss1 !! k = session_state !! k.
Proof.
  intros Hskip. unfold youtube_file_path.
  assert (Hcond : negb (String.length yt_url =? 0)%nat
                  && bool_decide (session_state !! yt_url = None) = false).
  { destruct Hskip as [->|[stored Hheld]]; [done|].
    rewrite bool_decide_eq_false_2 by congruence. apply andb_false_r. }
  rewrite Hcond.
  destruct (session_state !! yt_url) as [stored|]; intros [= <- <- <-];
    (split; [done|]); (split; [done|]); intros k Hk; by rewrite lookup_insert_ne.
Qed.

(** X19.  The block raises only when the downloader does, for a non-empty
    address that the session does not hold; the session is then left
    exactly as it was, without a stored path. *)
Theorem youtube_failure_leaves_session (yt_url : string)
    (session_state ss1 : gmap string val) (w w1 : world) (e : string) :
  youtube_file_path download_youtube_video yt_url session_state w
    = (Raises e, ss1, w1) →
  ss1 = session_state ∧
  yt_url ≠ EmptyString ∧
  session_state !! yt_url = None ∧
  download_youtube_video yt_url w = (Raises e, w1).
Proof.
  unfold youtube_file_path.
  destruct (negb (String.length yt_url =? 0)%nat) eqn:Hlen; simpl.
  - destruct (bool_decide (session_state !! yt_url = None)) eqn:Hheld.
    + apply bool_decide_eq_true_1 in Hheld.
      destruct (download_youtube_video yt_url w) as [[path|e'] w']; [done|].
      intros [= <- <- <-]. split; [done|]. split; [|done].
      intros ->. done.
    + by destruct (session_state !! yt_url).
  - by destruct (session_state !! yt_url).
Qed.
End YoutubeFacts.

(** ** The further properties on concrete inputs *)

Lemma registry_keys_tell_owner_witness :
  "openai/whisper" = "openai/whisper" ∧ "beam_size" = "beam_size".
Proof.
  apply (registry_keys_tell_owner "openai/whisper" "openai/whisper"
           "beam_size" "beam_size").
  - apply list_elem_of_here.
  - apply list_elem_of_here.
  - reflexivity.
Defined.

Lemma coercion_domain_witness :
  is_Some (({[ "beam_size" := VInt 7 ]} : gmap string val) !! "best_of") ↔
  "best_of" ∈ decoding_schema.*1 ∧
  is_Some (session_beam_only !! _get_key "openai/whisper" "best_of").
Proof.
  apply (coercion_domain "openai/whisper" decoding_schema session_beam_only None
           {[ "beam_size" := VInt 7 ]} None "best_of").
  reflexivity.
Defined.

Lemma coercion_reads_only_its_keys_witness :
  _get_config_from_session_state "openai/whisper" decoding_schema
    session_beam_only None
  = _get_config_from_session_state "openai/whisper" decoding_schema
      session_beam_and_subs None.
Proof.
  apply (coercion_reads_only_its_keys "openai/whisper" decoding_schema
           session_beam_only session_beam_and_subs None).
  intros name Hin.
  apply elem_of_cons in Hin as [->|Hin]; [reflexivity|].
  apply list_elem_of_singleton in Hin as ->. reflexivity.
Defined.

Lemma coercion_fails_only_on_numbers_witness :
  ∃ name config v e,
    (name, config) ∈ decoding_schema ∧
    session_bad_beam !! _get_key "openai/whisper" name = Some v ∧
    is_none_or_empty v = false ∧
    ((type config = TInt ∧ py_int v = Raises e) ∨
     (type config = TFloat ∧ py_float v = Raises e)) ∧
    (_get_config_from_session_state "openai/whisper" decoding_schema
       session_bad_beam None).2
    = Some (error ("Problem parsing configs!! " +:+ newline +:+ " " +:+ e)).
Proof.
  apply (coercion_fails_only_on_numbers "openai/whisper" decoding_schema
           session_bad_beam None).
  reflexivity.
Defined.

Lemma coerced_numbers_are_numbers_witness :
  (TInt = TInt → (VInt 7 : val) = VNone ∨ ∃ n, (VInt 7 : val) = VInt n) ∧
  (TInt = TFloat → (VInt 7 : val) = VNone ∨ ∃ f, (VInt 7 : val) = VFloat f).
Proof.
  apply (coerced_numbers_are_numbers "openai/whisper" decoding_schema
           session_beam_only None {[ "beam_size" := VInt 7 ]} None "beam_size"
           {| type := TInt; description := "number of beams";
              options := None; default := VInt 5 |} (VInt 7)).
  - exact decoding_schema_nodup.
  - apply list_elem_of_here.
  - reflexivity.
  - reflexivity.
Defined.

Lemma coercion_without_raw_values_witness :
  _get_config_from_session_state "openai/whisper" whisper_schema
    (session_state talk_session) None = (Some ∅, None).
Proof.
  apply (coercion_without_raw_values "openai/whisper" whisper_schema
           (session_state talk_session) None).
  intros name Hin. apply list_elem_of_singleton in Hin as ->. reflexivity.
Defined.

(** The widgets of the broken schema: the text input is made, the
    parameter of an unsupported class gets its warning, the select box
    raises. *)
Lemma generate_config_ui_keys_witness :
  ∃ visited rest,
    broken_schema = (visited ++ rest)%list ∧
    widget_key <$> [text_input "language" "spoken language"
                      "openai/whisper-language" VNone]
    = _get_key "openai/whisper"
        <$> (filter (λ entry, type entry.2 ≠ TOther) visited).*1 ∧
    [unsupported_warning "suppress_tokens"]
    = ([] ++ (unsupported_warning
                <$> (filter (λ entry, type entry.2 = TOther) visited).*1))%list ∧
    NoDup (widget_key <$> [text_input "language" "spoken language"
                             "openai/whisper-language" VNone]) ∧
    ∃ name config rest',
      rest = (name, config) :: rest' ∧
      type config = TList ∧
      _config_ui name (_get_key "openai/whisper" name) config
        [unsupported_warning "suppress_tokens"]
      = (Raises "'giant' is not in list", [unsupported_warning "suppress_tokens"]).
Proof.
  apply (generate_config_ui_keys "openai/whisper" broken_schema []
           [text_input "language" "spoken language" "openai/whisper-language" VNone]
           [unsupported_warning "suppress_tokens"]
           (Some "'giant' is not in list")).
  - apply (bool_decide_unpack _). reflexivity.
  - reflexivity.
Defined.

Example generate_config_ui_broken :
  _generate_config_ui "openai/whisper" broken_schema []
  = ([text_input "language" "spoken language" "openai/whisper-language" VNone],
     ["Warning: suppress_tokens does not have a supported UI"],
     Some "'giant' is not in list").
Proof. reflexivity. Qed.

(** The select box of [model_type] preselects ['base'], the second
    option. *)
Lemma selectbox_preselects_default_witness :
  match _config_ui "model_type" "openai/whisper-model_type"
          {| type := TList; description := "model size";
             options := Some [VStr "tiny"; VStr "base"; VStr "small"];
             default := VStr "base" |} [] with
  | (Returns made, stdout') =>
      stdout' = [] ∧
      ∃ choices index item,
        Some [VStr "tiny"; VStr "base"; VStr "small"] = Some choices ∧
        made = Some (selectbox "model_type" choices index "model size"
                       "openai/whisper-model_type") ∧
        choices !! index = Some item ∧
        py_eq item (VStr "base") = true ∧
        ∀ j other, (j < index)%nat → choices !! j = Some other →
                   py_eq other (VStr "base") = false
  | (Raises _, stdout') =>
      stdout' = [] ∧
      ((None : option (list val)) = None ∨
       ∃ choices, Some [VStr "tiny"; VStr "base"; VStr "small"] = Some choices ∧
                  ∀ item, item ∈ choices → py_eq item (VStr "base") = false)
  end.
Proof.
  exact (selectbox_preselects_default "model_type" "openai/whisper-model_type"
           {| type := TList; description := "model size";
              options := Some [VStr "tiny"; VStr "base"; VStr "small"];
              default := VStr "base" |} [] eq_refl).
Defined.

Example selectbox_of_model_type :
  _config_ui "model_type" "openai/whisper-model_type"
    {| type := TList; description := "model size";
       options := Some [VStr "tiny"; VStr "base"; VStr "small"];
       default := VStr "base" |} []
  = (Returns (Some (selectbox "model_type" [VStr "tiny"; VStr "base"; VStr "small"] 1
                      "model size" "openai/whisper-model_type")), []).
Proof. reflexivity. Qed.

(** The two widgets of the mixed schema hold values; the parameter of an
    unsupported class has no widget and no value. *)
Lemma generated_widgets_bind_every_parameter_witness :
  (∀ name config, (name, config) ∈ mixed_schema → type config ≠ TOther →
                  is_Some (({[ "language" := VStr "en"; "verbose" := VBool true ]}
                              : gmap string val) !! name)) ∧
  (∀ name, is_Some (({[ "language" := VStr "en"; "verbose" := VBool true ]}
                       : gmap string val) !! name) →
           name ∈ mixed_schema.*1).
Proof.
  apply (generated_widgets_bind_every_parameter "openai/whisper" mixed_schema []
           [text_input "language" "spoken language" "openai/whisper-language" VNone;
            checkbox "verbose" (VBool false) "print progress" "openai/whisper-verbose"]
           ["Warning: suppress_tokens does not have a supported UI"]
           mixed_session None
           {[ "language" := VStr "en"; "verbose" := VBool true ]} None).
  - reflexivity.
  - intros w Hw. apply elem_of_cons in Hw as [->|Hw]; [by eexists|].
    apply list_elem_of_singleton in Hw as ->. by eexists.
  - reflexivity.
Defined.

(** In that config the parameter without a widget is not bound. *)
Example mixed_schema_unsupported_unbound :
  _get_config_from_session_state "openai/whisper" mixed_schema mixed_session None
  = (Some {[ "language" := VStr "en"; "verbose" := VBool true ]}, None) ∧
  ({[ "language" := VStr "en"; "verbose" := VBool true ]} : gmap string val)
    !! "suppress_tokens" = None.
Proof. split; reflexivity. Qed.

(** Editing the first and the last event of a document of two. *)
Lemma edit_text_composes_witness :
  (py_index (length two_subs) 0 = py_index (length two_subs) (-1) →
   edit_text [ {| start := 0; end_ := 1000; text := "uno" |};
               {| start := 1000; end_ := 2000; text := "two" |} ] (-1) "dos"
   = Returns [ {| start := 0; end_ := 1000; text := "one" |};
               {| start := 1000; end_ := 2000; text := "dos" |} ]) ∧
  (py_index (length two_subs) 0 ≠ py_index (length two_subs) (-1) →
   edit_text [ {| start := 0; end_ := 1000; text := "uno" |};
               {| start := 1000; end_ := 2000; text := "two" |} ] (-1) "dos"
   = edit_text [ {| start := 0; end_ := 1000; text := "one" |};
                 {| start := 1000; end_ := 2000; text := "dos" |} ] 0 "uno" ∧
   ∃ s, edit_text [ {| start := 0; end_ := 1000; text := "uno" |};
                    {| start := 1000; end_ := 2000; text := "two" |} ] (-1) "dos"
        = Returns s).
Proof.
  apply (edit_text_composes two_subs
           [ {| start := 0; end_ := 1000; text := "uno" |};
             {| start := 1000; end_ := 2000; text := "two" |} ]
           [ {| start := 0; end_ := 1000; text := "one" |};
             {| start := 1000; end_ := 2000; text := "dos" |} ]
           0 (-1) "uno" "dos"); reflexivity.
Defined.

Example edit_text_same_entry_twice :
  edit_text two_subs 1 "dos" = Returns [ {| start := 0; end_ := 1000; text := "one" |};
                                         {| start := 1000; end_ := 2000; text := "dos" |} ] ∧
  edit_text [ {| start := 0; end_ := 1000; text := "one" |};
              {| start := 1000; end_ := 2000; text := "dos" |} ] (-1) "deux"
  = edit_text two_subs (-1) "deux".
Proof. split; reflexivity. Qed.

Lemma edit_text_negative_index_witness :
  edit_text two_subs (1 - Z.of_nat (length two_subs)) "dos" = edit_text two_subs 1 "dos" ∧
  ∃ subs', edit_text two_subs 1 "dos" = Returns subs'.
Proof.
  apply (edit_text_negative_index two_subs 1 "dos"). simpl. lia.
Defined.


(** An edit of the reloaded talk is an edit of its backup. *)
Lemma edit_after_reload_reaches_backup_witness :
  let u1 := change_subs_block [(0%Z, "hello")] (reload_block translated_session) in
  let u2 := reload_block u1 in
  session_state u1 !! "original_subs" = Some (VRef 0%nat) ∧
  heap u1 !! 0%nat = Some [ {| start := 0; end_ := 1000; text := "hello" |} ] ∧
  session_state u2 !! "transcribed_subs" = Some (VRef 0%nat) ∧
  heap u2 !! 0%nat = Some [ {| start := 0; end_ := 1000; text := "hello" |} ].
Proof.
  apply (edit_after_reload_reaches_backup translated_session 0%nat talk_subs
           [ {| start := 0; end_ := 1000; text := "hello" |} ] 0 "hello" []);
    reflexivity.
Defined.

(** Transcribing another file after the translation of the talk, then
    reloading: the talk is back. *)
Lemma reload_after_new_transcription_witness :
  let u' := (transcribe_block "other.mp4" translated_session).2 in
  (VRef 2%nat : val) ≠ VRef 0%nat ∧
  session_state u' !! "transcribed_subs" = Some (VRef 2%nat) ∧
  session_state (reload_block u') !! "transcribed_subs" = Some (VRef 0%nat) ∧
  heap (reload_block u') !! 0%nat = Some talk_subs.
Proof.
  apply (reload_after_new_transcription "other.mp4" translated_session
           (transcribe_block "other.mp4" translated_session).2
           (VRef 2%nat) 0%nat talk_subs); reflexivity.
Defined.

Lemma webui_keeps_documents_witness :
  heap (webui press_translate talk_session).2 !! 0%nat = Some talk_subs.
Proof.
  apply (webui_keeps_documents press_translate talk_session
           (webui press_translate talk_session).2 (Returns ()) 0%nat talk_subs);
    reflexivity.
Defined.


(** Downloading ["abc"] into the empty session. *)
Lemma youtube_downloads_once_witness :
  (<["file_path" := VStr "/tmp/abc.mp4"]> (<["abc" := VStr "/tmp/abc.mp4"]> ∅)
     : gmap string val) !! "abc" = Some (VStr "/tmp/abc.mp4") ∧
  (<["file_path" := VStr "/tmp/abc.mp4"]> (<["abc" := VStr "/tmp/abc.mp4"]> ∅)
     : gmap string val) !! "file_path" = Some (VStr "/tmp/abc.mp4") ∧
  ∀ (ss2 : gmap string val) (w2 : @world _ demo_engines),
    ss2 !! "abc" = Some (VStr "/tmp/abc.mp4") →
    youtube_file_path demo_download "abc" ss2 w2
    = (Returns (VStr "/tmp/abc.mp4"), <["file_path" := VStr "/tmp/abc.mp4"]> ss2, w2).
Proof.
  apply (youtube_downloads_once demo_download "abc" ∅
           (<["file_path" := VStr "/tmp/abc.mp4"]> (<["abc" := VStr "/tmp/abc.mp4"]> ∅))
           0%nat 1%nat (VStr "/tmp/abc.mp4")).
  - discriminate.
  - reflexivity.
Defined.

(** The address ["transcribed_subs"] in the talk session: the document
    itself is taken for the path. *)
Lemma youtube_skips_held_addresses_witness :
  (0%nat : @world _ demo_engines) = 0%nat ∧
  (Returns (VRef 0%nat) : raises val)
  = Returns (match session_state talk_session !! "transcribed_subs" with
             | Some stored => stored
             | None => VStr EmptyString
             end) ∧
  ∀ k, k ≠ "file_path" →
       (<["file_path" := VRef 0%nat]> (session_state talk_session)) !! k
       = session_state talk_session !! k.
Proof.
  apply (youtube_skips_held_addresses demo_download "transcribed_subs"
           (session_state talk_session)
           (<["file_path" := VRef 0%nat]> (session_state talk_session))
           0%nat 0%nat (Returns (VRef 0%nat))).
  - right. by eexists.
  - reflexivity.
Defined.

Lemma youtube_failure_leaves_session_witness :
  session_state talk_session = session_state talk_session ∧
  "abc" ≠ EmptyString ∧
  session_state talk_session !! "abc" = None ∧
  failing_download "abc" 0%nat = (Raises "Video unavailable", 0%nat).
Proof.
  apply (youtube_failure_leaves_session failing_download "abc"
           (session_state talk_session) (session_state talk_session)
           0%nat 0%nat "Video unavailable").
  reflexivity.
Defined.
